(** * Knowledge-graph recipe recommender: graph construction and ranking

    A shallow embedding of [backend/core/graph_triples.py],
    [backend/core/recommender.py], [backend/core/model.py],
    [backend/core/data_loading.py], [backend/routers/recommend.py] and
    [backend/models/schemas.py].

    Modelling conventions:
    - Python [str] values are Rocq [string]s; [str.lower] and [str.strip]
      are modelled on the ASCII range (letters A-Z, and the characters for
      which [str.isspace] holds: 9-13, 28-31 and 32).
    - Scores (floats in pandas) are exact rationals [Q], without the
      rounding of floating point; equalities of scores are
      stated with [Qeq] ([==]).
    - A pandas frame with columns [head_label] and a score is a list of
      rows [(label, score)], in row order. *)

From Stdlib Require Import String Ascii List Bool ZArith QArith Qfield Qminmax Lia Lqa DecimalString DecimalPos DecimalZ Sorted Permutation.
Set Warnings "-register-all".
Import ListNotations.
Open Scope string_scope.

(** ** Python string primitives *)

Module Py.

Definition is_upper (c : ascii) : bool :=
  let n := nat_of_ascii c in (65 <=? n)%nat && (n <=? 90)%nat.

Definition lower_char (c : ascii) : ascii :=
  if is_upper c then ascii_of_nat (nat_of_ascii c + 32)%nat else c.

(** [str.lower] *)
Fixpoint lower (s : string) : string :=
  match s with
  | EmptyString => EmptyString
  | String c s' => String (lower_char c) (lower s')
  end.

(** [str.isspace] on one character *)
Definition is_space (c : ascii) : bool :=
  let n := nat_of_ascii c in
  ((9 <=? n)%nat && (n <=? 13)%nat) || ((28 <=? n)%nat && (n <=? 32)%nat).

Fixpoint lstrip (s : string) : string :=
  match s with
  | EmptyString => EmptyString
  | String c s' => if is_space c then lstrip s' else s
  end.

Fixpoint rev_str (s : string) (acc : string) : string :=
  match s with
  | EmptyString => acc
  | String c s' => rev_str s' (String c acc)
  end.

Definition rstrip (s : string) : string :=
  rev_str (lstrip (rev_str s EmptyString)) EmptyString.

(** [str.strip()] *)
Definition strip (s : string) : string := rstrip (lstrip s).

(** [sub in s] *)
Fixpoint contains (sub s : string) : bool :=
  prefix sub s ||
  match s with
  | EmptyString => false
  | String _ s' => contains sub s'
  end.

(** [s.split(d)] for a one-character separator [d]: the pieces between
    consecutive occurrences of [d], empty pieces included. *)
Fixpoint split (d : ascii) (s : string) : list string :=
  match s with
  | EmptyString => [EmptyString]
  | String c s' =>
      if Ascii.eqb c d then EmptyString :: split d s'
      else match split d s' with
           | [] => [String c EmptyString]
           | p :: ps => String c p :: ps
           end
  end.

End Py.

(** ** [graph_triples.py]: [map_health_attribute] (lines 10-35) *)

Definition map_health_attribute (element : string) : string :=
  let e := Py.lower element in
  if Py.contains "protein" e then "HasProteinLevel"
  else if Py.contains "carb" e then "HasCarbLevel"
  else if Py.contains "fat" e && negb (Py.contains "saturated" e) then "HasFatLevel"
  else if Py.contains "saturated_fat" e then "HasSaturatedFatLevel"
  else if Py.contains "calorie" e then "HasCalorieLevel"
  else if Py.contains "sodium" e then "HasSodiumLevel"
  else if Py.contains "sugar" e then "HasSugarLevel"
  else if Py.contains "fiber" e then "HasFiberLevel"
  else if Py.contains "cholesterol" e then "HasCholesterolLevel"
  else "HasHealthAttribute".


(** ** [graph_triples.py]: the graph builder *)

Module Builder.

Definition UNKNOWN_PLACEHOLDER : string := "unknown".

(** [split_and_clean] (lines 38-40) *)
Definition split_and_clean (value : string) (delimiter : ascii) : list string :=
  map Py.strip (filter (fun v => negb (Py.strip v =? "")) (Py.split delimiter value)).

(** A cell of a recipe record, as pandas hands it over: a string, a missing
    value ([NaN], a float) or, for a dictionary built by hand, [None]. *)
Inductive cell : Type :=
| CNone
| CStr (s : string)
| CNaN.

(** Python truthiness of a cell *)
Definition truthy (c : cell) : bool :=
  match c with
  | CNone => false
  | CStr s => negb (s =? "")
  | CNaN => true
  end.

(** [c != UNKNOWN_PLACEHOLDER] *)
Definition not_unknown (c : cell) : bool :=
  match c with
  | CStr s => negb (s =? UNKNOWN_PLACEHOLDER)
  | _ => true
  end.

(** [str(c)] *)
Definition py_str (c : cell) : string :=
  match c with
  | CNone => "None"
  | CStr s => s
  | CNaN => "nan"
  end.

(** The guard [c and c != UNKNOWN_PLACEHOLDER and str(c).strip() != ""] *)
Definition present (c : cell) : bool :=
  truthy c && not_unknown c && negb (Py.strip (py_str c) =? "").

(** A recipe record: the dictionary [details] from column name to cell. *)
Definition details := list (string * cell).

(** [details.get(col, None)] *)
Fixpoint get (d : details) (col : string) : cell :=
  match d with
  | [] => CNone
  | (k, v) :: d' => if k =? col then v else get d' col
  end.

(** [d[col] = v] on a recipe record. *)
Fixpoint dict_set (d : details) (col : string) (v : cell) : details :=
  match d with
  | [] => [(col, v)]
  | (k, x) :: d' => if k =? col then (k, v) :: d' else (k, x) :: dict_set d' col v
  end.

(** Graph nodes: [("recipe", RecipeId)] and [(node_type, value)]. *)
Inductive node : Type :=
| RecipeNode (id : Z)
| AttrNode (node_type value : string).

Definition node_eqb (a b : node) : bool :=
  match a, b with
  | RecipeNode i, RecipeNode j => Z.eqb i j
  | AttrNode t v, AttrNode t' v' => (t =? t') && (v =? v')
  | _, _ => false
  end.

(** A [networkx.DiGraph]: nodes in insertion order, and edges in insertion
    order with their [relation] attribute (node attributes such as [type]
    and [label] are not modelled: no claim reads them). *)
Record graph : Type := mkGraph {
  g_nodes : list node;
  g_edges : list (node * node * string)
}.

Definition empty_graph : graph := mkGraph [] [].

Definition has_node (n : node) (G : graph) : bool :=
  existsb (node_eqb n) (g_nodes G).

(** [G.add_node(n, ...)]: a node already present is not added again. *)
Definition add_node (n : node) (G : graph) : graph :=
  if has_node n G then G else mkGraph (g_nodes G ++ [n])%list (g_edges G).

Definition same_pair (u v : node) (e : node * node * string) : bool :=
  let '(a, b, _) := e in node_eqb u a && node_eqb v b.

(** [G.add_edge(u, v, relation=r)]: adds the end points when absent; an
    existing edge [(u, v)] is kept in place with its attribute updated. *)
Definition add_edge (u v : node) (r : string) (G : graph) : graph :=
  let G1 := add_node v (add_node u G) in
  let es := g_edges G1 in
  if existsb (same_pair u v) es
  then mkGraph (g_nodes G1)
         (map (fun e => let '(a, b, r') := e in
                        if same_pair u v e then (a, b, r) else (a, b, r')) es)
  else mkGraph (g_nodes G1) (es ++ [(u, v, r)])%list.

(** A triple [(str(head), relation, str(tail))]; [str] of a node tuple is
    its Python [repr], which is injective, so the node itself is kept. *)
Definition triple : Type := (node * string * node)%type.

Definition state : Type := (graph * list triple)%type.

(** The three statements repeated in every branch of the builder:
    [if not G.has_node(node_id): G.add_node(node_id, ...)],
    [G.add_edge(recipe_node, node_id, relation=relation)] and
    [triples.append((str(recipe_node), relation, str(node_id)))]. *)
Definition link (recipe_node node_id : node) (relation : string) (st : state) : state :=
  let '(G, T) := st in
  let G1 := if negb (has_node node_id G) then add_node node_id G else G in
  (add_edge recipe_node node_id relation G1, (T ++ [(recipe_node, relation, node_id)])%list).

Definition attribute_mappings : list (string * (string * string)) :=
  [("Cooking_Method", ("usesCookingMethod", "cooking_method"));
   ("servings_bin", ("hasServingsBin", "servings_bin"));
   ("cook_time", ("hasCookTime", "cook_time"));
   ("CuisineRegion", ("hasCuisineRegion", "cuisine_region"))].

Definition list_attributes : list (string * (string * string * ascii)) :=
  [("Diet_Types", ("hasDietType", "diet_type", ","%char));
   ("meal_type", ("isForMealType", "meal_type", ","%char))].

Definition ingredient_relation : string := "containsIngredient".
Definition ingredient_node_type : string := "ingredient".
Definition ingredient_delimiter : ascii := ";".

(** Lines 115-127: one single-value attribute. *)
Definition single_step (recipe_node : node) (d : details)
    (st : state) (m : string * (string * string)) : state :=
  let '(col, (relation, node_type)) := m in
  let element := get d col in
  if present element then
    let element_clean := Py.strip (py_str element) in
    link recipe_node (AttrNode node_type element_clean) relation st
  else st.

(** Lines 130-140: [Healthy_Type]. *)
Definition health_step (recipe_node : node) (d : details) (st : state) : state :=
  let healthy := get d "Healthy_Type" in
  if present healthy then
    fold_left (fun st element =>
        if negb (element =? "") then
          link recipe_node (AttrNode "health_attribute" element)
               (map_health_attribute element) st
        else st)
      (split_and_clean (py_str healthy) ",") st
  else st.

(** Lines 143-153: one list attribute. *)
Definition list_step (recipe_node : node) (d : details)
    (st : state) (m : string * (string * string * ascii)) : state :=
  let '(col, (relation, node_type, delimiter)) := m in
  let value := get d col in
  if present value then
    fold_left (fun st element =>
        if negb (element =? "") then
          link recipe_node (AttrNode node_type element) relation st
        else st)
      (split_and_clean (py_str value) delimiter) st
  else st.

(** Lines 156-174: ingredients, stored in lower case. *)
Definition ingredient_step (recipe_node : node) (d : details) (st : state) : state :=
  let best_usda := get d "BestUsdaIngredientName" in
  if present best_usda then
    fold_left (fun st ingredient =>
        if negb (ingredient =? "") then
          link recipe_node (AttrNode "ingredient" (Py.lower ingredient))
               ingredient_relation st
        else st)
      (split_and_clean (py_str best_usda) ingredient_delimiter) st
  else st.

(** The body of the loop over [recipes.items()] (lines 109-174). *)
Definition process_recipe (st : state) (item : Z * details) : state :=
  let '(recipe_id, d) := item in
  let recipe_node := RecipeNode recipe_id in
  let '(G, T) := st in
  let st := (add_node recipe_node G, T) in
  let st := fold_left (single_step recipe_node d) attribute_mappings st in
  let st := health_step recipe_node d st in
  let st := fold_left (list_step recipe_node d) list_attributes st in
  ingredient_step recipe_node d st.

(** [create_graph_and_triples]: the dictionary [recipes] is the list of its
    items in iteration order. *)
Definition create_graph_and_triples (recipes : list (Z * details)) : state :=
  fold_left process_recipe recipes (empty_graph, []).

End Builder.

(** ** [recommender.py]: [map_user_input_to_criteria] (lines 12-70) *)

Module Translator.

(** The arguments of [map_user_input_to_criteria]. *)
Record user_input : Type := mkInput {
  cooking_method : option string;
  servings_bin : option string;
  diet_types : list string;
  meal_type : list string;
  cook_time : option string;
  health_types : list string;
  cuisine_region : option string;
  ingredients : list string;
  weights : list (string * Q)
}.

(** A criterion [(tail, relation, weight)]. *)
Definition criterion : Type := (string * string * Q)%type.

(** [weights.get(key, 1.0)] *)
Fixpoint weight_get (w : list (string * Q)) (key : string) : Q :=
  match w with
  | [] => 1%Q
  | (k, x) :: w' => if k =? key then x else weight_get w' key
  end.

(** [if value:] on an optional string *)
Definition opt_truthy (o : option string) : option string :=
  match o with
  | Some s => if s =? "" then None else Some s
  | None => None
  end.

Definition map_user_input_to_criteria (u : user_input) : list criterion :=
  let w := weights u in
  match opt_truthy (cooking_method u) with
  | Some cm => [("cooking_method_" ++ Py.lower (Py.strip cm), "usesCookingMethod",
                 weight_get w "cooking_method")]
  | None => []
  end ++
  match opt_truthy (servings_bin u) with
  | Some sb => [("servings_bin_" ++ Py.strip sb, "hasServingsBin", weight_get w "servings_bin")]
  | None => []
  end ++
  map (fun dt => ("diet_type_" ++ Py.strip dt, "hasDietType", weight_get w "diet_types"))
      (diet_types u) ++
  map (fun mt => ("meal_type_" ++ Py.strip mt, "isForMealType", weight_get w "meal_type"))
      (meal_type u) ++
  match opt_truthy (cook_time u) with
  | Some ct => [("cook_time_" ++ Py.strip ct, "hasCookTime", weight_get w "cook_time")]
  | None => []
  end ++
  map (fun ht => let ht_clean := Py.strip ht in
                 ("health_attribute_" ++ ht_clean, map_health_attribute ht_clean,
                  weight_get w "healthy_type"))
      (health_types u) ++
  match opt_truthy (cuisine_region u) with
  | Some cr => [("cuisine_region_" ++ Py.strip cr, "hasCuisineRegion", weight_get w "cuisine_region")]
  | None => []
  end ++
  map (fun ing => ("ingredient_" ++ Py.strip ing, "containsIngredient", weight_get w "ingredients"))
      (ingredients u).

Definition criteria_tails (u : user_input) : list string :=
  map (fun c => let '(t, _, _) := c in t) (map_user_input_to_criteria u).

End Translator.

(** ** [recommender.py]: [_normalize_scores] and [get_matching_recipes]
    (lines 73-127) *)

Module Ranking.
Open Scope Q_scope.

(** A frame of predictions: rows [(head_label, score)]. *)
Definition frame : Type := list (string * Q).

(** The embedding-model adapter [predict_target(relation=..., tail=...).df],
    reduced to its [head_label] and [score] columns. *)
Definition adapter : Type := string -> string -> frame.

Definition scores (df : frame) : list Q := map snd df.

Definition list_min (x : Q) (l : list Q) : Q := fold_left Qmin l x.
Definition list_max (x : Q) (l : list Q) : Q := fold_left Qmax l x.

(** [MinMaxScaler().fit_transform(df[["score"]])]: [scale_ = 1 / range]
    (a zero range is replaced by 1), [min_ = - data_min * scale_], and each
    value becomes [x * scale_ + min_]. *)
Definition min_max_scale (l : list Q) : list Q :=
  match l with
  | [] => []
  | x :: xs =>
      let data_min := list_min x xs in
      let data_max := list_max x xs in
      let data_range := data_max - data_min in
      let range := if Qeq_bool data_range 0 then 1 else data_range in
      let scale_ := 1 / range in
      let min_ := - data_min * scale_ in
      map (fun y => y * scale_ + min_) l
  end.

(** [_normalize_scores]: rows [(head_label, score, normalized_score)]. *)
Definition _normalize_scores (df : frame) : list (string * Q * Q) :=
  match df with
  | [] => []
  | _ => combine df (min_max_scale (scores df))
  end.

(** Lines 93-99 for one criterion: normalise, weight, keep
    [head_label] and [weighted_score]. *)
Definition weighted_preds (preds : frame) (weight : Q) : frame :=
  map (fun r => let '(h, _, ns) := r in (h, ns * weight)) (_normalize_scores preds).

(** The scores of the rows of [df] whose key is [k]. *)
Definition lookup_all (k : string) (df : frame) : list Q :=
  map snd (filter (fun r => fst r =? k) df).

(** [merged.merge(other, on="head_label", how="outer")] followed by the
    [fillna(0)] sum: every left row meets each matching right row (or none),
    then the right rows whose key is absent on the left.  (pandas may order
    the outer join's rows by key; the row order plays no part below.) *)
Definition merge_outer (merged other : frame) : frame :=
  app (flat_map (fun r => let '(k, s) := r in
              match lookup_all k other with
              | [] => [(k, s + 0)]
              | ss => map (fun s' => (k, s + s')) ss
              end) merged)
  (map (fun r => let '(k, s') := r in (k, 0 + s'))
      (filter (fun r => negb (existsb (String.eqb (fst r)) (map fst merged))) other)).

(** [merged.merge(other, on="head_label", how="inner")] followed by
    [merged["weighted_score"] += merged["weighted_score_y"]]. *)
Definition merge_inner (merged other : frame) : frame :=
  flat_map (fun r => let '(k, s) := r in map (fun s' => (k, s + s')) (lookup_all k other)) merged.

(** Lines 102-119. *)
Definition merge_preds (flexible : bool) (first : frame) (rest : list frame) : frame :=
  fold_left (fun merged other =>
      if flexible then merge_outer merged other else merge_inner merged other) rest first.

(** [sort_values(by="weighted_score", ascending=False)]: the rows by
    decreasing score, rows of equal score in row order.  [insert_desc r df]
    puts [r], a row that comes before those of [df], in front of the first
    row whose score is not greater than its own. *)
Fixpoint insert_desc (r : string * Q) (df : frame) : frame :=
  match df with
  | [] => [r]
  | r' :: df' => if Qle_bool (snd r') (snd r) then r :: df else r' :: insert_desc r df'
  end.

Definition sort_desc (df : frame) : frame := fold_right insert_desc [] df.

(** [df.head(n)] *)
Definition head (n : Z) (df : frame) : frame :=
  if (0 <=? n)%Z then firstn (Z.to_nat n) df
  else firstn (length df - Z.to_nat (- n)) df.

(** [s.split(sep, 1)[1]]: the text after the first occurrence of [sep];
    [None] stands for the [IndexError] raised when [sep] does not occur. *)
Fixpoint split_once_after (sep s : string) : option string :=
  if prefix sep s then Some (substring (String.length sep) (String.length s - String.length sep) s)
  else match s with
       | EmptyString => None
       | String _ s' => split_once_after sep s'
       end.

Definition parse_recipe_id (node_str : string) : option string :=
  split_once_after "recipe_" node_str.

Fixpoint map_option {A B : Type} (f : A -> option B) (l : list A) : option (list B) :=
  match l with
  | [] => Some []
  | x :: xs =>
      match f x, map_option f xs with
      | Some y, Some ys => Some (y :: ys)
      | _, _ => None
      end
  end.

(** [get_matching_recipes]: the returned ids ([None] for an exception) and
    the adapter calls [(relation, tail)] made, in order. *)
Definition get_matching_recipes (predict : adapter) (criteria : list Translator.criterion)
    (top_k : Z) (flexible : bool) : option (list string) * list (string * string) :=
  match criteria with
  | [] => (Some [], [])
  | _ =>
      let calls := map (fun c => let '(tail, relation, _) := c in (relation, tail)) criteria in
      let all_preds :=
        map (fun c => let '(tail, relation, weight) := c in
                      weighted_preds (predict relation tail) weight) criteria in
      let merged := match all_preds with
                    | [] => []
                    | first :: rest => merge_preds flexible first rest
                    end in
      let merged := filter (fun r => prefix "recipe_" (fst r)) merged in
      let merged := head top_k (sort_desc merged) in
      (map_option (fun r => parse_recipe_id (fst r)) merged, calls)
  end.

(** The combined score the specification describes: the sum, over the
    criteria's frames, of the candidate's score in each frame, 0 where it
    is absent. *)
Definition score_or_zero (k : string) (df : frame) : Q :=
  match lookup_all k df with
  | [] => 0
  | s :: _ => s
  end.

Definition spec_combined_score (k : string) (dfs : list frame) : Q :=
  fold_left (fun acc df => acc + score_or_zero k df) dfs 0.

End Ranking.

(** ** [model.py]: [tuple_to_canonical] (lines 15-27) *)

Module Canonical.

(** The values [ast.literal_eval] can return: strings, integers, tuples,
    lists, and any other literal (float, bytes, dict, set, None, bool),
    kept abstract. *)
Inductive pyval : Type :=
| PyStr (s : string)
| PyInt (z : Z)
| PyTuple (l : list pyval)
| PyList (l : list pyval)
| PyOther (tag : string).

(** [sys.int_info.default_max_str_digits]: [str()] of an integer with
    more decimal digits raises [ValueError]. *)
Definition int_max_str_digits : Z := 4300.

Section TupleToCanonical.

(** [ast.literal_eval]: [None] when it raises. *)
Variable literal_eval : string -> option pyval.
(** Subscription [v[i]] of the abstract literals ([None] when it raises). *)
Variable other_getitem : string -> nat -> option pyval.
(** [f"{v}"] of the values other than strings and integers. *)
Variable other_format : pyval -> option string.

(** [v[i]] for [i >= 0] *)
Definition getitem (v : pyval) (i : nat) : option pyval :=
  match v with
  | PyStr s => option_map (fun c => PyStr (String c EmptyString)) (get i s)
  | PyInt _ => None
  | PyTuple l | PyList l => nth_error l i
  | PyOther tag => other_getitem tag i
  end.

(** [f"{v}"] *)
Definition format (v : pyval) : option string :=
  match v with
  | PyStr s => Some s
  | PyInt z =>
      if (Z.abs z <? 10 ^ int_max_str_digits)%Z
      then Some (NilEmpty.string_of_int (Z.to_int z)) else None
  | _ => other_format v
  end.

(** [try: t = ast.literal_eval(s); return f"{t[0]}_{t[1]}"
     except Exception: print(...); return s] *)
Definition tuple_to_canonical (s : string) : string :=
  match literal_eval s with
  | None => s
  | Some t =>
      match getitem t 0, getitem t 1 with
      | Some a, Some b =>
          match format a, format b with
          | Some x, Some y => x ++ "_" ++ y
          | _, _ => s
          end
      | _, _ => s
      end
  end.

End TupleToCanonical.

End Canonical.

(** ** Correspondence between record columns and request fields *)

Module Correspondence.
Import Builder Translator.

(** The canonical string of a node: [tuple_to_canonical(str(node))], i.e.
    type and value joined by an underscore. *)
Definition node_canonical (n : node) : string :=
  match n with
  | RecipeNode i => "recipe_" ++ NilEmpty.string_of_int (Z.to_int i)
  | AttrNode t v => t ++ "_" ++ v
  end.

Inductive category : Type :=
| CookingMethod | ServingsBin | DietType | MealType
| CookTime | HealthType | CuisineRegion | Ingredient.

(** The record column the builder reads for a category. *)
Definition column (c : category) : string :=
  match c with
  | CookingMethod => "Cooking_Method"
  | ServingsBin => "servings_bin"
  | DietType => "Diet_Types"
  | MealType => "meal_type"
  | CookTime => "cook_time"
  | HealthType => "Healthy_Type"
  | CuisineRegion => "CuisineRegion"
  | Ingredient => "BestUsdaIngredientName"
  end.

(** The raw values a cell holds: the cell itself for a single-valued
    category, the non-blank pieces between delimiters for a list. *)
Definition raw_values (c : category) (v : string) : list string :=
  match c with
  | CookingMethod | ServingsBin | CookTime | CuisineRegion => [v]
  | DietType | MealType | HealthType =>
      filter (fun x => negb (Py.strip x =? "")) (Py.split "," v)
  | Ingredient => filter (fun x => negb (Py.strip x =? "")) (Py.split ";" v)
  end.

Definition empty_input : user_input := mkInput None None [] [] None [] None [] [].

(** A request carrying the raw values [vs] in the field of category [c]. *)
Definition request (c : category) (vs : list string) : user_input :=
  let one := hd_error vs in
  match c with
  | CookingMethod => mkInput one None [] [] None [] None [] []
  | ServingsBin => mkInput None one [] [] None [] None [] []
  | DietType => mkInput None None vs [] None [] None [] []
  | MealType => mkInput None None [] vs None [] None [] []
  | CookTime => mkInput None None [] [] one [] None [] []
  | HealthType => mkInput None None [] [] None vs None [] []
  | CuisineRegion => mkInput None None [] [] None [] one [] []
  | Ingredient => mkInput None None [] [] None [] None vs []
  end.

(** The tail nodes of the triples the builder emits for a single recipe
    whose only cell is [v] in the column of [c]. *)
Definition builder_tails (c : category) (v : string) : list node :=
  map (fun t => let '(_, _, n) := t in n)
      (snd (create_graph_and_triples [(0%Z, [(column c, CStr v)])])).

(** Whether the translator and the builder agree on letter case for a
    category and a raw value: cooking methods are lower-cased by the
    translator only, ingredients by the builder only. *)
Definition case_agrees (c : category) (v : string) : bool :=
  match c with
  | CookingMethod | Ingredient => Py.lower v =? v
  | _ => true
  end.

End Correspondence.

(** The relation the builder attaches to every edge into a given node: one
    fixed relation per node type, and for health attributes the relation
    chosen by [map_health_attribute] for the node's value. *)
Definition edge_relation_of (n : Builder.node) : string :=
  match n with
  | Builder.RecipeNode _ => ""
  | Builder.AttrNode t x =>
      if t =? "cooking_method" then "usesCookingMethod"
      else if t =? "servings_bin" then "hasServingsBin"
      else if t =? "cook_time" then "hasCookTime"
      else if t =? "cuisine_region" then "hasCuisineRegion"
      else if t =? "health_attribute" then map_health_attribute x
      else if t =? "diet_type" then "hasDietType"
      else if t =? "meal_type" then "isForMealType"
      else if t =? "ingredient" then "containsIngredient"
      else ""
  end.

Definition edge_pair (e : Builder.node * Builder.node * string) : Builder.node * Builder.node :=
  let '(a, b, _) := e in (a, b).

(** The triple list and the edge list describe the same labelled edges,
    every edge carries the relation of its tail node, and no two edges
    share a (head, tail) pair. *)
Definition builder_inv (st : Builder.state) : Prop :=
  let '(G, T) := st in
  (forall u r v, In (u, r, v) T <-> In (u, v, r) (Builder.g_edges G)) /\
  (forall u v r, In (u, v, r) (Builder.g_edges G) -> r = edge_relation_of v) /\
  NoDup (map edge_pair (Builder.g_edges G)).

(** The stub adapter of the specification's example. *)
Definition dessert_stub : Ranking.adapter :=
  fun _ _ => [("recipe_10", 9 # 10); ("recipe_7", 5 # 10); ("ingredient_sugar", 8 # 10)]%Q.

(** A recipe cell written with a hexadecimal literal: [('recipe', 16^3600)],
    an integer of 4335 decimal digits. *)
Definition big_hex_label : string :=
  "('recipe', 0x1" ++ string_of_list_ascii (repeat "0"%char 3600) ++ ")".

(** A parser that knows the triple cells of the examples, returning what
    [ast.literal_eval] returns on them. *)
Definition example_literal_eval (s : string) : option Canonical.pyval :=
  if s =? "('meal_type', 'dinner')"
  then Some (Canonical.PyTuple [Canonical.PyStr "meal_type"; Canonical.PyStr "dinner"])
  else if s =? "('recipe', 42)"
  then Some (Canonical.PyTuple [Canonical.PyStr "recipe"; Canonical.PyInt 42])
  else if s =? big_hex_label
  then Some (Canonical.PyTuple [Canonical.PyStr "recipe"; Canonical.PyInt (2 ^ 14400)])
  else None.

Module MergeInvariants.
Import Ranking.
Open Scope Q_scope.

Definition keys (df : frame) : list string := map fst df.

Definition mem (k : string) (l : list string) : bool := existsb (String.eqb k) l.

(** The union invariant after some frames [dfs] have been merged. *)
Definition union_inv (m : frame) (dfs : list frame) : Prop :=
  NoDup (keys m) /\
  (forall k, In k (keys m) <-> exists df, In df dfs /\ In k (keys df)) /\
  (forall k s, In (k, s) m -> s == spec_combined_score k dfs).

Definition inter_inv (m : frame) (dfs : list frame) : Prop :=
  NoDup (keys m) /\
  (forall k, In k (keys m) <-> forall df, In df dfs -> In k (keys df)) /\
  (forall k s, In (k, s) m -> s == spec_combined_score k dfs).

End MergeInvariants.


(** The shape of a stripped string: it does not start with whitespace. *)
Definition good_start (s : string) : bool :=
  match s with
  | EmptyString => true
  | String c _ => negb (Py.is_space c)
  end.

(** A node value as the builder stores it: non-empty and stripped. *)
Definition clean_value (x : string) : Prop := x <> "" /\ Py.strip x = x.

(** The shape of the builder's state once the records with ids [ids] have
    been processed: no node twice, every edge between nodes, the recipe
    nodes are those of [ids], attribute values are clean, and every triple
    goes from a recipe node to an attribute node. *)
Definition builder_shape (ids : list Z) (st : Builder.state) : Prop :=
  let '(G, T) := st in
  NoDup (Builder.g_nodes G) /\
  (forall u v r, In (u, v, r) (Builder.g_edges G) ->
     In u (Builder.g_nodes G) /\ In v (Builder.g_nodes G)) /\
  (forall z, In (Builder.RecipeNode z) (Builder.g_nodes G) <-> In z ids) /\
  (forall t x, In (Builder.AttrNode t x) (Builder.g_nodes G) -> clean_value x) /\
  (forall h r t, In (h, r, t) T ->
     (exists z, h = Builder.RecipeNode z /\ In z ids) /\
     (exists ty x, t = Builder.AttrNode ty x /\ clean_value x)).


(** A state transformer whose triples do not depend on the state: run on
    [(G, T)] it appends to [T] the triples it appends on the empty state,
    and its graph does not depend on [T]. *)
Definition triples_sep (F : Builder.state -> Builder.state) : Prop :=
  forall G T, F (G, T) = (fst (F (G, [])), (T ++ snd (F (Builder.empty_graph, [])))%list).


(** ** [models/schemas.py] and [routers/recommend.py] *)

Module Schemas.

(** [RecommendationRequest] (lines 5-17), with its defaults. *)
Record RecommendationRequest : Type := mkRecommendationRequest {
  cooking_method : option string;
  servings_bin : option string;
  diet_types : list string;
  meal_type : list string;
  cook_time : option string;
  health_types : list string;
  cuisine_region : option string;
  ingredients : list string;
  weights : list (string * Q);
  top_k : Z;
  flexible : bool
}.

Definition default_request : RecommendationRequest :=
  mkRecommendationRequest None None [] [] None [] None [] [] 5%Z false.

End Schemas.

Module Routers.

(** [recommend_recipes] (lines 13-29): the returned ids and the adapter
    calls made, as for [get_matching_recipes]. *)
Definition recommend_recipes (predict : Ranking.adapter) (request : Schemas.RecommendationRequest)
    : option (list string) * list (string * string) :=
  let criteria := Translator.map_user_input_to_criteria
    (Translator.mkInput (Schemas.cooking_method request) (Schemas.servings_bin request)
       (Schemas.diet_types request) (Schemas.meal_type request) (Schemas.cook_time request)
       (Schemas.health_types request) (Schemas.cuisine_region request)
       (Schemas.ingredients request) (Schemas.weights request)) in
  Ranking.get_matching_recipes predict criteria (Schemas.top_k request) (Schemas.flexible request).

End Routers.


(** ** [core/data_loading.py], [load_recipes_from_dataframe] and [fetch_recipe_info] *)

Module DataLoading.

Import Builder.

(** The recipes DataFrame: its column names and its rows.  The [RecipeId]
    of a row (an integer column) is kept apart as a [Z]; the other cells of
    the row are looked up by column name. *)
Record dataframe : Type := mkDataFrame {
  df_columns : list string;
  df_rows : list (Z * details)
}.

(** [col in df.columns] *)
Definition has_column (df : dataframe) (col : string) : bool :=
  existsb (String.eqb col) (df_columns df).

(** [Series.dropna()]: the missing values ([NaN], [None]) are dropped. *)
Definition dropna (cs : list cell) : list cell :=
  filter (fun c => match c with CStr _ => true | _ => false end) cs.

Definition cell_eqb (a b : cell) : bool :=
  match a, b with
  | CNone, CNone => true
  | CStr x, CStr y => x =? y
  | CNaN, CNaN => true
  | _, _ => false
  end.

(** [Series.unique()]: the values in order of first occurrence, [seen]
    holding those already returned. *)
Fixpoint unique_from (seen : list cell) (cs : list cell) : list cell :=
  match cs with
  | [] => []
  | c :: cs' =>
      if existsb (cell_eqb c) seen then unique_from seen cs'
      else c :: unique_from (c :: seen) cs'
  end.

Definition unique (cs : list cell) : list cell := unique_from [] cs.

(** [s.add(x)] on a set of strings, kept as a list without repetition. *)
Definition set_add (s : list string) (x : string) : list string :=
  if existsb (String.eqb x) s then s else (s ++ [x])%list.

(** [sorted()] on strings (code-point order), by insertion. *)
Fixpoint insert_sorted (x : string) (l : list string) : list string :=
  match l with
  | [] => [x]
  | y :: l' => if String.leb x y then x :: l else y :: insert_sorted x l'
  end.

Definition sorted_strings (l : list string) : list string := fold_right insert_sorted [] l.

(** [get_unique_ingredients] (lines 22-39), on the DataFrame it reads.
    [re.split(r";", s)] splits at every [";"] as [s.split(";")] does. *)
Definition get_unique_ingredients (recipes_df : dataframe) : list string :=
  let unique_ings :=
    if has_column recipes_df "BestUsdaIngredientName" then
      fold_left
        (fun unique_ings ing_str =>
           fold_left
             (fun unique_ings part =>
                let cleaned := part in
                if negb (cleaned =? "") && negb (cleaned =? "unknown") && negb (cleaned =? "nan")
                then set_add unique_ings cleaned else unique_ings)
             (Py.split ";" (py_str ing_str)) unique_ings)
        (unique (dropna (map (fun row => get (snd row) "BestUsdaIngredientName")
                             (df_rows recipes_df))))
        []
    else [] in
  sorted_strings unique_ings.

(** ASCII decimal digits *)
Definition is_digit (c : ascii) : bool :=
  let n := nat_of_ascii c in (48 <=? n)%nat && (n <=? 57)%nat.

Definition digit_value (c : ascii) : Z := Z.of_nat (nat_of_ascii c - 48).

(** The digits of [int(s)]: at least one digit, single underscores allowed
    between digits; [after_digit] tells whether the previous character was a
    digit.  [None] stands for the [ValueError]. *)
Fixpoint parse_digits (s : string) (acc : Z) (after_digit : bool) : option Z :=
  match s with
  | EmptyString => if after_digit then Some acc else None
  | String c s' =>
      if is_digit c then parse_digits s' (10 * acc + digit_value c) true
      else if Ascii.eqb c "_" && after_digit then parse_digits s' acc false
      else None
  end.

(** [int(s)] on a [str] of ASCII characters (base 10): surrounding
    whitespace is ignored and one leading sign is allowed.  Outside ASCII,
    [int()] also accepts other Unicode digits and whitespace, which this
    definition does not.  [int()] also raises on more than 4300 digits;
    such strings do not arise here, since [str()] of an integer that long
    raises as well. *)
Definition py_int (s : string) : option Z :=
  match Py.strip s with
  | EmptyString => None
  | String c s' =>
      if Ascii.eqb c "-" then option_map Z.opp (parse_digits s' 0 false)
      else if Ascii.eqb c "+" then parse_digits s' 0 false
      else parse_digits (String c s') 0 false
  end.

(** [fetch_recipe_info] (recommender.py lines 130-142): the first row whose
    [RecipeId] equals [int(recipe_id)], [None] when the id does not parse or
    no row has it. *)
Definition fetch_recipe_info (recipes_df : dataframe) (recipe_id : string) : option (Z * details) :=
  match py_int recipe_id with
  | None => None
  | Some rid_int => find (fun row => Z.eqb (fst row) rid_int) (df_rows recipes_df)
  end.

Definition columns_to_keep : list string :=
  ["RecipeId"; "Cooking_Method"; "servings_bin"; "Diet_Types"; "meal_type";
   "cook_time"; "Healthy_Type"; "CuisineRegion"; "BestUsdaIngredientName"].

(** [recipe_data = {col: row[col] for col in columns_to_keep}]; the
    [RecipeId] entry is the key of the record itself (the builder reads
    the key), the record keeps the eight other columns. *)
Definition recipe_data (cells : details) : details :=
  map (fun col => (col, get cells col)) (tl columns_to_keep).

(** [recipes[recipe_id] = recipe_data] on a dictionary keyed by [RecipeId]:
    an existing key keeps its place, a new one is appended. *)
Fixpoint dict_assign (recipes : list (Z * details)) (k : Z) (v : details) : list (Z * details) :=
  match recipes with
  | [] => [(k, v)]
  | (k', v') :: rest => if Z.eqb k' k then (k', v) :: rest else (k', v') :: dict_assign rest k v
  end.

(** [recipes[k]] *)
Fixpoint dict_lookup (recipes : list (Z * details)) (k : Z) : option details :=
  match recipes with
  | [] => None
  | (k', v) :: rest => if Z.eqb k' k then Some v else dict_lookup rest k
  end.

(** [load_recipes_from_dataframe] (graph_triples.py lines 43-69): [inl]
    with the missing columns for the [ValueError], else the dictionary. *)
Definition load_recipes_from_dataframe (df : dataframe) : list string + list (Z * details) :=
  let missing := filter (fun col => negb (has_column df col)) columns_to_keep in
  match missing with
  | _ :: _ => inl missing
  | [] =>
      inr (fold_left (fun recipes row =>
                        let '(recipe_id, cells) := row in
                        dict_assign recipes recipe_id (recipe_data cells))
                     (df_rows df) [])
  end.

End DataLoading.


(** ** Theorems *)

Example map_health_low_sat : map_health_attribute "Low_Saturated_Fat" = "HasSaturatedFatLevel".
Proof. reflexivity. Qed.
Example map_health_space : map_health_attribute "low saturated fat" = "HasHealthAttribute".
Proof. reflexivity. Qed.
Example split_ex : Py.split ";" "a; b;;c" = ["a"; " b"; ""; "c"].
Proof. reflexivity. Qed.
Example strip_ex : Py.strip "  a b  " = "a b".
Proof. reflexivity. Qed.

(** Claim C1 (as stated: fails).  The string ["saturated fat"] contains both
    ["saturated"] and ["fat"], yet it is not mapped to
    [HasSaturatedFatLevel]: the fourth rule looks for the substring
    ["saturated_fat"], with an underscore. *)
Lemma C1_counterexample :
  Py.contains "saturated" (Py.lower "saturated fat") = true /\
  Py.contains "fat" (Py.lower "saturated fat") = true /\
  map_health_attribute "saturated fat" <> "HasSaturatedFatLevel".
Proof. split; [reflexivity | split; [reflexivity | discriminate]]. Qed.

(** Claim C1 (amended).  For every string containing, case-insensitively,
    both "saturated" and "fat", [map_health_attribute] never returns
    [HasFatLevel]; it returns [HasSaturatedFatLevel] exactly when the
    lower-cased string contains "saturated_fat" and neither "protein" nor
    "carb" (the two rules checked earlier). *)
Theorem C1_saturated_fat_mapping (s : string) :
  Py.contains "saturated" (Py.lower s) = true ->
  Py.contains "fat" (Py.lower s) = true ->
  map_health_attribute s <> "HasFatLevel" /\
  (map_health_attribute s = "HasSaturatedFatLevel" <->
   Py.contains "saturated_fat" (Py.lower s) = true /\
   Py.contains "protein" (Py.lower s) = false /\
   Py.contains "carb" (Py.lower s) = false).
Proof.
  intros Hsat Hfat. unfold map_health_attribute. rewrite Hsat, Hfat. simpl.
  destruct (Py.contains "protein" (Py.lower s));
  [split; [discriminate | split; [discriminate | intros (_ & H & _); discriminate]]|].
  destruct (Py.contains "carb" (Py.lower s));
  [split; [discriminate | split; [discriminate | intros (_ & _ & H); discriminate]]|].
  destruct (Py.contains "saturated_fat" (Py.lower s));
  [split; [discriminate | tauto]|].
  split; [|split; [|intros (H & _); discriminate]];
  repeat match goal with
         | |- context [if ?b then _ else _] => destruct b
         end; discriminate.
Qed.

Lemma C1_saturated_fat_mapping_witness :
  (Py.contains "saturated" (Py.lower "Low_Saturated_Fat") = true /\
   Py.contains "fat" (Py.lower "Low_Saturated_Fat") = true) /\
  map_health_attribute "Low_Saturated_Fat" = "HasSaturatedFatLevel".
Proof.
  split; [split; reflexivity|].
  apply (proj2 (C1_saturated_fat_mapping "Low_Saturated_Fat" eq_refl eq_refl)).
  repeat split; reflexivity.
Defined.

Module BuilderFacts.
Import Builder.

Lemma node_eqb_eq (a b : node) : node_eqb a b = true <-> a = b.
Proof.
  destruct a as [i | t v], b as [j | t' v']; simpl; split; intro H;
    try discriminate.
  - apply Z.eqb_eq in H; subst; reflexivity.
  - injection H as ->; apply Z.eqb_refl.
  - apply andb_true_iff in H as [H1 H2].
    apply String.eqb_eq in H1, H2; subst; reflexivity.
  - injection H as -> ->; rewrite !String.eqb_refl; reflexivity.
Qed.

Lemma add_node_edges (n : node) (G : graph) : g_edges (add_node n G) = g_edges G.
Proof. unfold add_node; destruct (has_node n G); reflexivity. Qed.

Lemma same_pair_true u v e :
  same_pair u v e = true -> exists r, e = (u, v, r).
Proof.
  destruct e as [[a b] r]; simpl; intro H.
  apply andb_true_iff in H as [H1 H2].
  apply node_eqb_eq in H1, H2; subst; eauto.
Qed.

Lemma link_inv (u v : node) (r : string) (st : state) :
  builder_inv st -> r = edge_relation_of v -> builder_inv (link u v r st).
Proof.
  destruct st as [G T]; simpl; intros (Htr & Hrel & Hnd) Hr.
  set (G1 := if negb (has_node v G) then add_node v G else G).
  assert (HE1 : g_edges G1 = g_edges G)
    by (unfold G1; destruct (negb (has_node v G)); [apply add_node_edges | reflexivity]).
  unfold add_edge.
  set (G2 := add_node v (add_node u G1)).
  assert (HE2 : g_edges G2 = g_edges G)
    by (unfold G2; rewrite !add_node_edges; exact HE1).
  rewrite HE2.
  destruct (existsb (same_pair u v) (g_edges G)) eqn:Hex.
  - assert (Hmap : map (fun e => let '(a, b, r') := e in
                         if same_pair u v e then (a, b, r) else (a, b, r'))
                       (g_edges G) = g_edges G).
    { rewrite <- (map_id (g_edges G)) at 2. apply map_ext_in.
      intros [[a b] r'] Hin. destruct (same_pair u v (a, b, r')) eqn:Hs; [|reflexivity].
      apply same_pair_true in Hs as [r0 Hs]. injection Hs as -> -> ->.
      rewrite (Hrel _ _ _ Hin), Hr. reflexivity. }
    simpl. rewrite Hmap.
    apply existsb_exists in Hex as [e [Hin Hs]].
    apply same_pair_true in Hs as [r0 ->].
    assert (r0 = r) by (rewrite (Hrel _ _ _ Hin); auto). subst r0.
    split; [|split; assumption].
    intros x y z. rewrite in_app_iff, Htr. simpl. split.
    + intros [H | [H | []]]; [exact H|]. injection H as -> -> ->. exact Hin.
    + intro H; left; exact H.
  - simpl. split; [|split].
    + intros x y z. rewrite !in_app_iff, Htr. simpl. split.
      * intros [H | [H | []]]; [left; exact H | right; left; injection H as -> -> ->; reflexivity].
      * intros [H | [H | []]]; [left; exact H | right; left; injection H as -> -> ->; reflexivity].
    + intros x y z Hin. apply in_app_iff in Hin as [Hin | [H | []]].
      * exact (Hrel _ _ _ Hin).
      * injection H as -> -> ->; exact Hr.
    + rewrite map_app. simpl. apply NoDup_app; [exact Hnd | constructor; [intros []|constructor] |].
      intros p Hp Hp'. destruct Hp' as [<- | []].
      apply in_map_iff in Hp as [[[a b] r'] [He Hin]]. simpl in He. injection He as -> ->.
      assert (Hsp : same_pair u v (u, v, r') = true)
        by (simpl; rewrite !(proj2 (node_eqb_eq _ _) eq_refl); reflexivity).
      assert (existsb (same_pair u v) (g_edges G) = true)
        by (apply existsb_exists; eauto).
      congruence.
Qed.

Lemma fold_left_inv {A : Type} (f : state -> A -> state) (l : list A) (st : state) :
  (forall st a, In a l -> builder_inv st -> builder_inv (f st a)) ->
  builder_inv st -> builder_inv (fold_left f l st).
Proof.
  revert st. induction l as [|a l IH]; simpl; intros st Hf Hst; [exact Hst|].
  apply IH; [intros; apply Hf; auto | apply Hf; auto].
Qed.

Lemma add_node_inv (n : node) (G : graph) (T : list triple) :
  builder_inv (G, T) -> builder_inv (add_node n G, T).
Proof. simpl. rewrite add_node_edges. exact (fun H => H). Qed.

Lemma process_recipe_inv (st : state) (item : Z * details) :
  builder_inv st -> builder_inv (process_recipe st item).
Proof.
  destruct item as [rid d], st as [G T]. unfold process_recipe. intro H.
  apply (add_node_inv (RecipeNode rid)) in H.
  unfold ingredient_step.
  destruct (present (get d "BestUsdaIngredientName"));
  [apply fold_left_inv; [intros st ing _ Hst; destruct (negb (ing =? "")); [apply link_inv; [exact Hst | reflexivity] | exact Hst]|] |].
  all: apply fold_left_inv;
    [intros st m Hm Hst; simpl in Hm;
     destruct Hm as [<- | [<- | []]]; unfold list_step;
     (destruct (present _); [apply fold_left_inv; [intros st' e _ Hst'; destruct (negb (e =? "")); [apply link_inv; [exact Hst' | reflexivity] | exact Hst'] | exact Hst] | exact Hst]) |].
  all: unfold health_step; destruct (present (get d "Healthy_Type"));
    [apply fold_left_inv; [intros st e _ Hst; destruct (negb (e =? "")); [apply link_inv; [exact Hst | reflexivity] | exact Hst]|] |].
  all: apply fold_left_inv; [|exact H].
  all: intros st m Hm Hst; simpl in Hm;
     destruct Hm as [<- | [<- | [<- | [<- | []]]]]; unfold single_step;
     (destruct (present _); [apply link_inv; [exact Hst | reflexivity] | exact Hst]).
Qed.

Lemma create_graph_and_triples_inv (recipes : list (Z * details)) :
  builder_inv (create_graph_and_triples recipes).
Proof.
  unfold create_graph_and_triples. apply fold_left_inv.
  - intros st a _ H; apply process_recipe_inv; exact H.
  - simpl. split; [tauto | split; [intros _ _ _ [] | constructor]].
Qed.

End BuilderFacts.

(** Claim C4 (as stated: fails).  A recipe whose [Diet_Types] lists
    ["Vegan"] twice gets two identical triples but a single graph edge:
    [DiGraph.add_edge] on an existing edge does not add a second one. *)
Lemma C4_counterexample :
  let '(G, T) := Builder.create_graph_and_triples
                   [(1%Z, [("Diet_Types", Builder.CStr "Vegan,Vegan")])] in
  length T = 2%nat /\ length (Builder.g_edges G) = 1%nat.
Proof. vm_compute. split; reflexivity. Qed.

(** Claim C4 (amended).  For every recipe mapping, the triples returned by
    [create_graph_and_triples] are exactly the flattened edges of the
    returned graph: a triple [(h, r, t)] is in the list iff the graph has
    the edge [h -> t] labelled [r]; and the graph has at most one edge per
    (head, tail) pair.  The triple list may repeat a triple (a token listed
    twice by one recipe), so the correspondence is onto, not one-to-one. *)
Theorem C4_triples_are_edges (recipes : list (Z * Builder.details)) :
  let '(G, T) := Builder.create_graph_and_triples recipes in
  (forall h r t, In (h, r, t) T <-> In (h, t, r) (Builder.g_edges G)) /\
  NoDup (map edge_pair (Builder.g_edges G)).
Proof.
  pose proof (BuilderFacts.create_graph_and_triples_inv recipes) as H.
  destruct (Builder.create_graph_and_triples recipes) as [G T].
  destruct H as (H1 & _ & H3). split; assumption.
Qed.

Module BuilderEquations.
Import Builder.

Lemma fold_left_ext_in {A B : Type} (f g : A -> B -> A) (l : list B) (a : A) :
  (forall x b, In b l -> f x b = g x b) -> fold_left f l a = fold_left g l a.
Proof.
  revert a; induction l as [|b l IH]; simpl; intros a H; [reflexivity|].
  rewrite H by auto. apply IH; auto.
Qed.

Lemma fold_left_map_fun {A B C : Type} (f : A -> C -> A) (h : B -> C) (l : list B) (a : A) :
  fold_left f (map h l) a = fold_left (fun x b => f x (h b)) l a.
Proof. revert a; induction l; simpl; auto. Qed.

(** The record's contribution only depends on the cells it reads. *)
Lemma process_recipe_ext (st : state) (rid : Z) (d1 d2 : details) :
  (forall m, In m attribute_mappings ->
     forall st, single_step (RecipeNode rid) d1 st m = single_step (RecipeNode rid) d2 st m) ->
  (forall st, health_step (RecipeNode rid) d1 st = health_step (RecipeNode rid) d2 st) ->
  (forall m, In m list_attributes ->
     forall st, list_step (RecipeNode rid) d1 st m = list_step (RecipeNode rid) d2 st m) ->
  (forall st, ingredient_step (RecipeNode rid) d1 st = ingredient_step (RecipeNode rid) d2 st) ->
  process_recipe st (rid, d1) = process_recipe st (rid, d2).
Proof.
  intros Hs Hh Hl Hi. destruct st as [G T]. unfold process_recipe.
  rewrite (fold_left_ext_in _ (single_step (RecipeNode rid) d2)) by (intros; apply Hs; auto).
  rewrite Hh.
  rewrite (fold_left_ext_in _ (list_step (RecipeNode rid) d2)) by (intros; apply Hl; auto).
  apply Hi.
Qed.

Lemma create_graph_and_triples_ext (pre post : list (Z * details)) (rid : Z) (d1 d2 : details) :
  (forall st, process_recipe st (rid, d1) = process_recipe st (rid, d2)) ->
  create_graph_and_triples (pre ++ (rid, d1) :: post) =
  create_graph_and_triples (pre ++ (rid, d2) :: post).
Proof.
  intro H. unfold create_graph_and_triples. rewrite !fold_left_app. cbn [fold_left]. rewrite H. reflexivity.
Qed.

Lemma present_unknown_or_blank (s : string) :
  (s =? UNKNOWN_PLACEHOLDER) || (Py.strip s =? "") = true -> present (CStr s) = false.
Proof.
  unfold present; simpl. intro H.
  destruct (s =? UNKNOWN_PLACEHOLDER), (Py.strip s =? ""); simpl in *;
    try discriminate; rewrite ?andb_false_r; reflexivity.
Qed.

(** ASCII case folding commutes with the string operations the builder uses. *)
Lemma is_space_lower_char (c : ascii) : Py.is_space (Py.lower_char c) = Py.is_space c.
Proof. destruct c as [[] [] [] [] [] [] [] []]; reflexivity. Qed.

Lemma lower_char_semicolon (c : ascii) :
  Ascii.eqb (Py.lower_char c) ";" = Ascii.eqb c ";".
Proof. destruct c as [[] [] [] [] [] [] [] []]; reflexivity. Qed.

Lemma lower_lstrip (s : string) : Py.lower (Py.lstrip s) = Py.lstrip (Py.lower s).
Proof.
  induction s as [|c s IH]; simpl; [reflexivity|].
  rewrite is_space_lower_char. destruct (Py.is_space c); [exact IH | reflexivity].
Qed.

Lemma lower_rev_str (s acc : string) :
  Py.lower (Py.rev_str s acc) = Py.rev_str (Py.lower s) (Py.lower acc).
Proof. revert acc; induction s as [|c s IH]; simpl; intro acc; [reflexivity|]. apply IH. Qed.

Lemma lower_strip (s : string) : Py.lower (Py.strip s) = Py.strip (Py.lower s).
Proof.
  unfold Py.strip, Py.rstrip.
  rewrite lower_rev_str, lower_lstrip, lower_rev_str, lower_lstrip. reflexivity.
Qed.

Lemma lower_empty (s : string) : (Py.lower s =? "") = (s =? "").
Proof. destruct s; reflexivity. Qed.

Lemma strip_lower_empty (s : string) :
  (Py.strip (Py.lower s) =? "") = (Py.strip s =? "").
Proof. rewrite <- lower_strip. apply lower_empty. Qed.

Lemma lower_split_semicolon (s : string) :
  map Py.lower (Py.split ";" s) = Py.split ";" (Py.lower s).
Proof.
  induction s as [|c s IH]; simpl; [reflexivity|].
  rewrite lower_char_semicolon. destruct (Ascii.eqb c ";").
  - simpl. rewrite IH. reflexivity.
  - rewrite <- IH. destruct (Py.split ";" s); reflexivity.
Qed.

Lemma lower_split_and_clean (s : string) :
  map Py.lower (split_and_clean s ";") = split_and_clean (Py.lower s) ";".
Proof.
  unfold split_and_clean. rewrite <- lower_split_semicolon.
  induction (Py.split ";" s) as [|x l IH]; simpl; [reflexivity|].
  rewrite strip_lower_empty. destruct (negb (Py.strip x =? "")); simpl.
  - rewrite lower_strip, IH. reflexivity.
  - exact IH.
Qed.

Lemma present_lower (s1 s2 : string) :
  Py.lower s1 = Py.lower s2 ->
  (s1 =? UNKNOWN_PLACEHOLDER) = false -> (s2 =? UNKNOWN_PLACEHOLDER) = false ->
  present (CStr s1) = present (CStr s2).
Proof.
  intros Hl H1 H2. unfold present, truthy, not_unknown, py_str.
  rewrite H1, H2, <- (lower_empty s1), <- (lower_empty s2), Hl.
  rewrite <- (strip_lower_empty s1), <- (strip_lower_empty s2), Hl. reflexivity.
Qed.

End BuilderEquations.

Module BuilderDict.
Import Builder.

Lemma get_dict_set_same (d : details) (col : string) (v : cell) : get (dict_set d col v) col = v.
Proof.
  induction d as [|[k x] d IH]; simpl; [rewrite String.eqb_refl; reflexivity|].
  destruct (String.eqb_spec k col); simpl.
  - subst; rewrite String.eqb_refl; reflexivity.
  - apply String.eqb_neq in n. rewrite n. exact IH.
Qed.

Lemma get_dict_set_other (d : details) (col k : string) (v : cell) :
  k <> col -> get (dict_set d col v) k = get d k.
Proof.
  intro Hne. induction d as [|[k' x] d IH]; simpl.
  - apply String.eqb_neq in Hne. rewrite String.eqb_sym, Hne. reflexivity.
  - destruct (String.eqb_spec k' col); simpl.
    + subst. apply String.eqb_neq in Hne. rewrite String.eqb_sym, Hne. reflexivity.
    + destruct (k' =? k); [reflexivity | exact IH].
Qed.

End BuilderDict.

(** Claim C5.  When the cell of a single-valued category (cooking method,
    servings bin, cook time, cuisine region) of a recipe is the placeholder
    "unknown" or blank after trimming, that recipe contributes no node, edge
    or triple for the category: the graph and the triples are exactly those
    obtained with the cell set to [None]. *)
Theorem C5_placeholder_single_value_skipped
    (col s : string) (d : Builder.details) (pre post : list (Z * Builder.details)) (rid : Z) :
  In col (map fst Builder.attribute_mappings) ->
  Builder.get d col = Builder.CStr s ->
  (s =? Builder.UNKNOWN_PLACEHOLDER) || (Py.strip s =? "") = true ->
  Builder.create_graph_and_triples (pre ++ (rid, d) :: post) =
  Builder.create_graph_and_triples (pre ++ (rid, Builder.dict_set d col Builder.CNone) :: post).
Proof.
  intros Hcol Hget Hs. apply BuilderEquations.create_graph_and_triples_ext. intro st.
  assert (Hother : forall k, k <> col ->
            Builder.get (Builder.dict_set d col Builder.CNone) k = Builder.get d k)
    by (intros; apply BuilderDict.get_dict_set_other; auto).
  assert (Hnot : forall k, ~ In k (map fst Builder.attribute_mappings) -> k <> col)
    by (intros k Hk ->; contradiction).
  apply BuilderEquations.process_recipe_ext.
  - intros [c [r nt]] _ st'. unfold Builder.single_step.
    destruct (String.eqb_spec c col) as [-> | Hne].
    + rewrite Hget, BuilderDict.get_dict_set_same,
        (BuilderEquations.present_unknown_or_blank s Hs). reflexivity.
    + rewrite (Hother c Hne). reflexivity.
  - intro st'. unfold Builder.health_step.
    rewrite Hother by (apply Hnot; simpl; intuition discriminate). reflexivity.
  - intros m Hm st'. simpl in Hm. destruct Hm as [<- | [<- | []]]; unfold Builder.list_step;
      (rewrite Hother by (apply Hnot; simpl; intuition discriminate)); reflexivity.
  - intro st'. unfold Builder.ingredient_step.
    rewrite Hother by (apply Hnot; simpl; intuition discriminate). reflexivity.
Qed.

Lemma C5_placeholder_single_value_skipped_witness :
  (In "Cooking_Method" (map fst Builder.attribute_mappings) /\
   Builder.get [("Cooking_Method", Builder.CStr "unknown"); ("meal_type", Builder.CStr "dessert")]
     "Cooking_Method" = Builder.CStr "unknown" /\
   ("unknown" =? Builder.UNKNOWN_PLACEHOLDER) || (Py.strip "unknown" =? "") = true) /\
  Builder.create_graph_and_triples
    ([] ++ (7%Z, [("Cooking_Method", Builder.CStr "unknown"); ("meal_type", Builder.CStr "dessert")]) :: []) =
  Builder.create_graph_and_triples
    ([] ++ (7%Z, Builder.dict_set [("Cooking_Method", Builder.CStr "unknown");
                                 ("meal_type", Builder.CStr "dessert")] "Cooking_Method" Builder.CNone) :: []).
Proof.
  split; [split; [simpl; left; reflexivity | split; reflexivity]|].
  apply (C5_placeholder_single_value_skipped "Cooking_Method" "unknown"); [simpl; left; reflexivity | reflexivity | reflexivity].
Defined.

(** Claim C6 (as stated: fails).  The ingredient cells "unknown" and
    "Unknown" differ only in letter case, but the first is the placeholder
    (compared case-sensitively) and yields no ingredient edge, while the
    second yields an edge to the node [("ingredient", "unknown")]. *)
Lemma C6_counterexample :
  Py.lower "unknown" = Py.lower "Unknown" /\
  In (Builder.RecipeNode 1, Builder.AttrNode "ingredient" "unknown", "containsIngredient")
     (Builder.g_edges (fst (Builder.create_graph_and_triples
        [(1%Z, [("BestUsdaIngredientName", Builder.CStr "Unknown")])]))) /\
  ~ In (Builder.RecipeNode 1, Builder.AttrNode "ingredient" "unknown", "containsIngredient")
     (Builder.g_edges (fst (Builder.create_graph_and_triples
        [(1%Z, [("BestUsdaIngredientName", Builder.CStr "unknown")])]))).
Proof.
  split; [reflexivity | split; vm_compute; tauto].
Qed.

(** Claim C6 (amended).  Ingredient node identity is case-insensitive
    whenever neither ingredient cell is exactly the placeholder "unknown":
    for two records whose ingredient strings differ only in (ASCII) letter
    case, the ingredient processing adds the same nodes, edges and triples
    from any starting graph, and replacing one string by the other in a
    record leaves the whole graph and triple list unchanged. *)
Theorem C6_ingredient_case_insensitive (d1 d2 : Builder.details) (s1 s2 : string) :
  Builder.get d1 "BestUsdaIngredientName" = Builder.CStr s1 ->
  Builder.get d2 "BestUsdaIngredientName" = Builder.CStr s2 ->
  Py.lower s1 = Py.lower s2 ->
  (s1 =? Builder.UNKNOWN_PLACEHOLDER) = false ->
  (s2 =? Builder.UNKNOWN_PLACEHOLDER) = false ->
  (forall rn st, Builder.ingredient_step rn d1 st = Builder.ingredient_step rn d2 st) /\
  (forall pre post rid,
     Builder.create_graph_and_triples (pre ++ (rid, d1) :: post) =
     Builder.create_graph_and_triples
       (pre ++ (rid, Builder.dict_set d1 "BestUsdaIngredientName" (Builder.CStr s2)) :: post)).
Proof.
  intros H1 H2 Hl U1 U2.
  assert (Hstep : forall d1 d2 rn st,
            Builder.get d1 "BestUsdaIngredientName" = Builder.CStr s1 ->
            Builder.get d2 "BestUsdaIngredientName" = Builder.CStr s2 ->
            Builder.ingredient_step rn d1 st = Builder.ingredient_step rn d2 st).
  { clear d1 d2 H1 H2. intros d1 d2 rn st H1 H2. unfold Builder.ingredient_step.
    rewrite H1, H2, (BuilderEquations.present_lower s1 s2 Hl U1 U2).
    destruct (Builder.present (Builder.CStr s2)); [|reflexivity]. simpl Builder.py_str.
    set (g := fun st x => if negb (x =? "")
                          then Builder.link rn (Builder.AttrNode "ingredient" x)
                                 Builder.ingredient_relation st
                          else st).
    assert (Hfg : forall s, fold_left (fun st ingredient =>
                     if negb (ingredient =? "")
                     then Builder.link rn (Builder.AttrNode "ingredient" (Py.lower ingredient))
                            Builder.ingredient_relation st
                     else st) (Builder.split_and_clean s Builder.ingredient_delimiter) st =
                   fold_left g (map Py.lower (Builder.split_and_clean s ";")) st).
    { intro s. rewrite BuilderEquations.fold_left_map_fun.
      apply BuilderEquations.fold_left_ext_in. intros x b _. unfold g.
      rewrite BuilderEquations.lower_empty. reflexivity. }
    rewrite !Hfg, !BuilderEquations.lower_split_and_clean, Hl. reflexivity. }
  split.
  - intros rn st. apply Hstep; assumption.
  - intros pre post rid. apply BuilderEquations.create_graph_and_triples_ext. intro st.
    set (d2' := Builder.dict_set d1 "BestUsdaIngredientName" (Builder.CStr s2)).
    assert (Hother : forall k, k <> "BestUsdaIngredientName" -> Builder.get d2' k = Builder.get d1 k)
      by (intros; apply BuilderDict.get_dict_set_other; auto).
    apply BuilderEquations.process_recipe_ext.
    + intros m Hm st'. simpl in Hm.
      destruct Hm as [<- | [<- | [<- | [<- | []]]]]; unfold Builder.single_step;
        (rewrite Hother by discriminate); reflexivity.
    + intro st'. unfold Builder.health_step. rewrite Hother by discriminate. reflexivity.
    + intros m Hm st'. simpl in Hm. destruct Hm as [<- | [<- | []]]; unfold Builder.list_step;
        (rewrite Hother by discriminate); reflexivity.
    + intro st'. apply Hstep; [exact H1 | apply BuilderDict.get_dict_set_same].
Qed.

Lemma C6_ingredient_case_insensitive_witness :
  (Builder.get [("BestUsdaIngredientName", Builder.CStr "Tomato; Basil")] "BestUsdaIngredientName"
     = Builder.CStr "Tomato; Basil" /\
   Builder.get [("BestUsdaIngredientName", Builder.CStr "tomato; BASIL")] "BestUsdaIngredientName"
     = Builder.CStr "tomato; BASIL" /\
   Py.lower "Tomato; Basil" = Py.lower "tomato; BASIL" /\
   ("Tomato; Basil" =? Builder.UNKNOWN_PLACEHOLDER) = false /\
   ("tomato; BASIL" =? Builder.UNKNOWN_PLACEHOLDER) = false) /\
  Builder.ingredient_step (Builder.RecipeNode 3) [("BestUsdaIngredientName", Builder.CStr "Tomato; Basil")]
    (Builder.empty_graph, []) =
  Builder.ingredient_step (Builder.RecipeNode 3) [("BestUsdaIngredientName", Builder.CStr "tomato; BASIL")]
    (Builder.empty_graph, []).
Proof.
  split; [repeat split; reflexivity|].
  apply (proj1 (C6_ingredient_case_insensitive
                  [("BestUsdaIngredientName", Builder.CStr "Tomato; Basil")]
                  [("BestUsdaIngredientName", Builder.CStr "tomato; BASIL")]
                  "Tomato; Basil" "tomato; BASIL"
                  eq_refl eq_refl eq_refl eq_refl eq_refl)).
Defined.

Module CorrespondenceFacts.
Import Builder Translator Correspondence.

Lemma get_single_same (col : string) (x : cell) : get [(col, x)] col = x.
Proof. simpl. rewrite String.eqb_refl. reflexivity. Qed.

Lemma get_single_other (col k : string) (x : cell) : k <> col -> get [(col, x)] k = CNone.
Proof. intro H. simpl. apply String.eqb_neq in H. rewrite String.eqb_sym, H. reflexivity. Qed.

Lemma single_step_absent rn col x st m :
  fst m <> col -> single_step rn [(col, x)] st m = st.
Proof.
  destruct m as [c [r nt]]; simpl fst; intro H. unfold single_step.
  rewrite get_single_other by exact H. reflexivity.
Qed.

Lemma health_step_absent rn col x st :
  "Healthy_Type" <> col -> health_step rn [(col, x)] st = st.
Proof. intro H. unfold health_step. rewrite get_single_other by exact H. reflexivity. Qed.

Lemma list_step_absent rn col x st m :
  fst m <> col -> list_step rn [(col, x)] st m = st.
Proof.
  destruct m as [c [[r nt] dl]]; simpl fst; intro H. unfold list_step.
  rewrite get_single_other by exact H. reflexivity.
Qed.

Lemma ingredient_step_absent rn col x st :
  "BestUsdaIngredientName" <> col -> ingredient_step rn [(col, x)] st = st.
Proof. intro H. unfold ingredient_step. rewrite get_single_other by exact H. reflexivity. Qed.

Lemma link_snd rn n r G T : snd (link rn n r (G, T)) = (T ++ [(rn, r, n)])%list.
Proof. reflexivity. Qed.

Lemma fold_link_snd (f : string -> node) (r : string -> string) rn l G T :
  snd (fold_left (fun st e => if negb (e =? "") then link rn (f e) (r e) st else st) l (G, T)) =
  (T ++ map (fun e => (rn, r e, f e)) (filter (fun e => negb (e =? "")) l))%list.
Proof.
  revert G T. induction l as [|e l IH]; intros G T; simpl.
  - rewrite app_nil_r. reflexivity.
  - destruct (negb (e =? "")); simpl.
    + rewrite IH, <- app_assoc. reflexivity.
    + apply IH.
Qed.

Lemma split_and_clean_nonempty (v : string) (d : ascii) :
  filter (fun e => negb (e =? "")) (split_and_clean v d) = split_and_clean v d.
Proof.
  unfold split_and_clean. induction (Py.split d v) as [|x l IH]; simpl; [reflexivity|].
  destruct (Py.strip x =? "") eqn:E; simpl; [exact IH|]. rewrite E. simpl. rewrite IH. reflexivity.
Qed.

Lemma present_truthy (v : string) : present (CStr v) = true -> (v =? "") = false.
Proof. unfold present, truthy. destruct (v =? ""); simpl; [discriminate | reflexivity]. Qed.

Lemma lower_strip_fixed (v : string) : Py.lower v = v -> Py.lower (Py.strip v) = Py.strip v.
Proof. intro H. rewrite BuilderEquations.lower_strip, H. reflexivity. Qed.

Lemma lower_split_and_clean_fixed (v : string) :
  Py.lower v = v -> map Py.lower (split_and_clean v ";") = split_and_clean v ";".
Proof. intro H. rewrite BuilderEquations.lower_split_and_clean, H. reflexivity. Qed.

End CorrespondenceFacts.

Module CorrespondenceProof.
Import Builder Translator Correspondence CorrespondenceFacts.

Ltac drop_absent_steps :=
  repeat match goal with
  | |- context [single_step ?rn [(?c, ?x)] ?st ?m] =>
      rewrite (single_step_absent rn c x st m) by (simpl; discriminate)
  | |- context [list_step ?rn [(?c, ?x)] ?st ?m] =>
      rewrite (list_step_absent rn c x st m) by (simpl; discriminate)
  | |- context [health_step ?rn [(?c, ?x)] ?st] =>
      rewrite (health_step_absent rn c x st) by discriminate
  | |- context [ingredient_step ?rn [(?c, ?x)] ?st] =>
      rewrite (ingredient_step_absent rn c x st) by discriminate
  end.


Lemma builder_tails_eq (c : category) (v : string) :
  present (CStr v) = true ->
  builder_tails c v =
  match c with
  | CookingMethod => [AttrNode "cooking_method" (Py.strip v)]
  | ServingsBin => [AttrNode "servings_bin" (Py.strip v)]
  | CookTime => [AttrNode "cook_time" (Py.strip v)]
  | CuisineRegion => [AttrNode "cuisine_region" (Py.strip v)]
  | DietType => map (AttrNode "diet_type") (split_and_clean v ",")
  | MealType => map (AttrNode "meal_type") (split_and_clean v ",")
  | HealthType => map (AttrNode "health_attribute") (split_and_clean v ",")
  | Ingredient => map (fun e => AttrNode "ingredient" (Py.lower e)) (split_and_clean v ";")
  end.
Proof.
  intro Hp. unfold builder_tails, create_graph_and_triples.
  destruct c; cbn [fold_left column]; unfold process_recipe;
    cbn [fold_left attribute_mappings list_attributes]; drop_absent_steps;
    unfold single_step, list_step, health_step, ingredient_step;
    rewrite get_single_same, Hp.
  all: try (rewrite link_snd; reflexivity).
  all: rewrite fold_link_snd, split_and_clean_nonempty; simpl; rewrite map_map; reflexivity.
Qed.

End CorrespondenceProof.

(** Claim C3 (as stated: fails).  For the ingredient cell ["Tomato"] the
    builder emits the node [("ingredient", "tomato")], canonically
    ["ingredient_tomato"], while the translator turns the same value into
    the tail ["ingredient_Tomato"]; symmetrically the cooking method
    ["Bake"] is the node ["cooking_method_Bake"] for the builder and the
    tail ["cooking_method_bake"] for the translator. *)
Lemma C3_counterexample :
  map Correspondence.node_canonical (Correspondence.builder_tails Correspondence.Ingredient "Tomato")
    = ["ingredient_tomato"] /\
  Translator.criteria_tails
    (Correspondence.request Correspondence.Ingredient
       (Correspondence.raw_values Correspondence.Ingredient "Tomato")) = ["ingredient_Tomato"] /\
  map Correspondence.node_canonical (Correspondence.builder_tails Correspondence.CookingMethod "Bake")
    = ["cooking_method_Bake"] /\
  Translator.criteria_tails
    (Correspondence.request Correspondence.CookingMethod
       (Correspondence.raw_values Correspondence.CookingMethod "Bake")) = ["cooking_method_bake"].
Proof. vm_compute. repeat split. Qed.

(** Claim C3 (amended).  For a raw cell value from which the builder creates
    nodes (non-blank after trimming and not the placeholder), the tails the
    translator produces for the same raw values (the cell itself for a
    single-valued category, its non-blank comma- or semicolon-separated
    pieces for a list category) are exactly the canonical strings
    [type_value] of the nodes the builder links the recipe to, in order,
    for every category; for cooking methods and ingredients this requires
    the value to be already lower-case. *)
Theorem C3_translator_matches_builder (c : Correspondence.category) (v : string) :
  Builder.present (Builder.CStr v) = true ->
  Correspondence.case_agrees c v = true ->
  map Correspondence.node_canonical (Correspondence.builder_tails c v) =
  Translator.criteria_tails (Correspondence.request c (Correspondence.raw_values c v)).
Proof.
  intros Hp Hc. rewrite (CorrespondenceProof.builder_tails_eq c v Hp).
  pose proof (CorrespondenceFacts.present_truthy v Hp) as Hv.
  destruct c; unfold Translator.criteria_tails, Translator.map_user_input_to_criteria,
    Correspondence.request, Correspondence.raw_values; simpl; rewrite ?Hv; simpl.
  - apply String.eqb_eq in Hc. rewrite (CorrespondenceFacts.lower_strip_fixed v Hc). reflexivity.
  - reflexivity.
  - unfold Builder.split_and_clean. rewrite ?app_nil_r, !map_map. reflexivity.
  - unfold Builder.split_and_clean. rewrite ?app_nil_r, !map_map. reflexivity.
  - reflexivity.
  - unfold Builder.split_and_clean. rewrite ?app_nil_r, !map_map. reflexivity.
  - reflexivity.
  - apply String.eqb_eq in Hc.
    rewrite ?app_nil_r.
    transitivity (map (fun e => "ingredient_" ++ e) (map Py.lower (Builder.split_and_clean v ";"))).
    + rewrite !map_map. reflexivity.
    + rewrite (CorrespondenceFacts.lower_split_and_clean_fixed v Hc).
      unfold Builder.split_and_clean. rewrite !map_map. reflexivity.
Qed.

Lemma C3_translator_matches_builder_witness :
  (Builder.present (Builder.CStr " Vegan, Keto ,") = true /\
   Correspondence.case_agrees Correspondence.DietType " Vegan, Keto ," = true) /\
  map Correspondence.node_canonical (Correspondence.builder_tails Correspondence.DietType " Vegan, Keto ,") =
  Translator.criteria_tails
    (Correspondence.request Correspondence.DietType
       (Correspondence.raw_values Correspondence.DietType " Vegan, Keto ,")).
Proof.
  split; [split; reflexivity|].
  apply C3_translator_matches_builder; reflexivity.
Defined.


(** Claim C7.  With the criterion [("meal_type_dessert", "isForMealType", 1.0)],
    [flexible = false], [K = 2] and the stub adapter, the result is
    [["10"; "7"]]. *)
Theorem C7_dessert_example :
  fst (Ranking.get_matching_recipes dessert_stub
         [("meal_type_dessert", "isForMealType", 1%Q)] 2 false) = Some ["10"; "7"].
Proof. vm_compute. reflexivity. Qed.

(** Claim C8.  With no criteria the result is empty and the adapter is never
    called, whatever it is; with [top_k = 0] the result is empty for every
    criteria list. *)
Theorem C8_empty_criteria_or_zero_k :
  (forall predict top_k flexible,
     Ranking.get_matching_recipes predict [] top_k flexible = (Some [], [])) /\
  (forall predict criteria flexible,
     fst (Ranking.get_matching_recipes predict criteria 0 flexible) = Some []).
Proof.
  split.
  - reflexivity.
  - intros predict [|c cs] flexible; reflexivity.
Qed.

Module RankingFacts.
Import Ranking.
Open Scope Q_scope.

Lemma fold_min_const (l : list Q) (acc c : Q) :
  acc == c -> (forall y, In y l -> y == c) -> fold_left Qmin l acc == c.
Proof.
  revert acc. induction l as [|y l IH]; simpl; intros acc Hacc Hl; [exact Hacc|].
  apply IH; [|intros; apply Hl; auto].
  destruct (Q.min_spec_le acc y) as [[_ ->] | [_ ->]]; [exact Hacc | apply Hl; auto].
Qed.

Lemma fold_max_const (l : list Q) (acc c : Q) :
  acc == c -> (forall y, In y l -> y == c) -> fold_left Qmax l acc == c.
Proof.
  revert acc. induction l as [|y l IH]; simpl; intros acc Hacc Hl; [exact Hacc|].
  apply IH; [|intros; apply Hl; auto].
  destruct (Q.max_spec_le acc y) as [[_ ->] | [_ ->]]; [apply Hl; auto | exact Hacc].
Qed.

Lemma min_max_scale_const (l : list Q) (c : Q) :
  (forall y, In y l -> y == c) -> forall z, In z (min_max_scale l) -> z == 0.
Proof.
  intros Hl z Hz. destruct l as [|x xs]; [contradiction|].
  unfold min_max_scale in Hz. cbv zeta in Hz.
  assert (Hmin : list_min x xs == c)
    by (apply fold_min_const; [apply Hl; left; reflexivity | intros; apply Hl; right; auto]).
  assert (Hmax : list_max x xs == c)
    by (apply fold_max_const; [apply Hl; left; reflexivity | intros; apply Hl; right; auto]).
  assert (Hr : list_max x xs - list_min x xs == 0) by (rewrite Hmin, Hmax; ring).
  apply Qeq_bool_iff in Hr. rewrite Hr in Hz.
  apply in_map_iff in Hz as [y [<- Hy]].
  assert (Hyc : y == c) by (apply Hl; exact Hy).
  rewrite Hyc, Hmin. unfold Qdiv. simpl. ring.
Qed.

End RankingFacts.

(** Claim C10.  When every raw score of one criterion's adapter result equals
    the same value (in particular when it has a single candidate), every
    normalised score is 0, so the criterion's weighted score is 0 for each
    of its candidates. *)
Theorem C10_constant_scores_weight_zero (df : Ranking.frame) (c weight : Q) :
  (forall r, In r df -> (snd r == c)%Q) ->
  forall h w, In (h, w) (Ranking.weighted_preds df weight) -> (w == 0)%Q.
Proof.
  intros Hc h w Hin. unfold Ranking.weighted_preds in Hin.
  apply in_map_iff in Hin as [[[h' s] ns] [Heq Hin]]. injection Heq as _ <-.
  unfold Ranking._normalize_scores in Hin. destruct df as [|r df]; [contradiction|].
  apply in_combine_r in Hin.
  assert (Hns : (ns == 0)%Q).
  { apply (RankingFacts.min_max_scale_const (Ranking.scores (r :: df)) c); [|exact Hin].
    intros y Hy. unfold Ranking.scores in Hy. apply in_map_iff in Hy as [r' [<- Hr']].
    apply Hc; exact Hr'. }
  rewrite Hns. ring.
Qed.

Lemma C10_constant_scores_weight_zero_witness :
  (forall r, In r [("recipe_3", 7 # 10)] -> (snd r == 7 # 10)%Q) /\
  (forall h w, In (h, w) (Ranking.weighted_preds [("recipe_3", 7 # 10)] 2) -> (w == 0)%Q).
Proof.
  assert (H : forall r, In r [("recipe_3", 7 # 10)] -> (snd r == 7 # 10)%Q)
    by (intros r [<- | []]; reflexivity).
  split; [exact H|].
  apply (C10_constant_scores_weight_zero _ (7 # 10) 2 H).
Defined.

Module MergeFacts.
Import Ranking MergeInvariants.
Open Scope Q_scope.


Lemma mem_iff (k : string) (l : list string) : mem k l = true <-> In k l.
Proof.
  unfold mem. rewrite existsb_exists. split.
  - intros [x [Hx He]]. apply String.eqb_eq in He. subst. exact Hx.
  - intro H. exists k. split; [exact H | apply String.eqb_refl].
Qed.

Lemma lookup_all_cons (k k' : string) (s : Q) (df : frame) :
  lookup_all k ((k', s) :: df) = if k' =? k then s :: lookup_all k df else lookup_all k df.
Proof. unfold lookup_all. simpl. destruct (k' =? k); reflexivity. Qed.

Lemma lookup_all_notin (k : string) (df : frame) :
  ~ In k (keys df) -> lookup_all k df = [].
Proof.
  induction df as [|[k' s] df IH]; intro H; [reflexivity|]. rewrite lookup_all_cons.
  destruct (String.eqb_spec k' k); [exfalso; apply H; left; assumption|].
  apply IH. intro; apply H; right; assumption.
Qed.

Lemma lookup_all_in (k : string) (s : Q) (df : frame) :
  NoDup (keys df) -> In (k, s) df -> lookup_all k df = [s].
Proof.
  induction df as [|[k' s'] df IH]; intros Hnd Hin; [contradiction|].
  inversion Hnd as [|x l Hx Hnd' Heq]; subst. rewrite lookup_all_cons.
  destruct Hin as [Heq | Hin].
  - injection Heq as -> ->. rewrite String.eqb_refl.
    rewrite lookup_all_notin by exact Hx. reflexivity.
  - destruct (String.eqb_spec k' k) as [-> | Hne].
    + exfalso. apply Hx. apply in_map_iff. exists (k, s). auto.
    + apply IH; assumption.
Qed.

Lemma in_keys (k : string) (df : frame) : In k (keys df) -> exists s, In (k, s) df.
Proof.
  unfold keys. intro H. apply in_map_iff in H as [[k' s] [Hk Hin]]. simpl in Hk. subst. eauto.
Qed.

Lemma score_or_zero_in (k : string) (s : Q) (df : frame) :
  NoDup (keys df) -> In (k, s) df -> score_or_zero k df = s.
Proof. intros Hnd Hin. unfold score_or_zero. rewrite (lookup_all_in k s df Hnd Hin). reflexivity. Qed.

Lemma score_or_zero_notin (k : string) (df : frame) :
  ~ In k (keys df) -> score_or_zero k df = 0.
Proof. intro H. unfold score_or_zero. rewrite lookup_all_notin by exact H. reflexivity. Qed.

Lemma spec_combined_score_app (k : string) (dfs : list frame) (df : frame) :
  spec_combined_score k (dfs ++ [df]) = spec_combined_score k dfs + score_or_zero k df.
Proof. unfold spec_combined_score. rewrite fold_left_app. reflexivity. Qed.

Lemma fold_scores_absent (k : string) (dfs : list frame) (acc : Q) :
  (forall df, In df dfs -> ~ In k (keys df)) ->
  fold_left (fun acc df => acc + score_or_zero k df) dfs acc == acc.
Proof.
  revert acc. induction dfs as [|df dfs IH]; simpl; intros acc H; [reflexivity|].
  rewrite IH by auto. rewrite score_or_zero_notin by auto. ring.
Qed.

Lemma flat_map_singleton {A B : Type} (F : A -> list B) (G : A -> B) (l : list A) :
  (forall a, F a = [G a]) -> flat_map F l = map G l.
Proof. intro H. induction l as [|a l IH]; simpl; [reflexivity|]. rewrite H, IH. reflexivity. Qed.

Lemma flat_map_filter {A B : Type} (F : A -> list B) (G : A -> B) (p : A -> bool) (l : list A) :
  (forall a, F a = if p a then [G a] else []) -> flat_map F l = map G (filter p l).
Proof.
  intro H. induction l as [|a l IH]; simpl; [reflexivity|].
  rewrite H, IH. destruct (p a); reflexivity.
Qed.

(** Under unique keys, each left row meets at most one right row. *)
Lemma merge_outer_closed (m o : frame) :
  NoDup (keys o) ->
  merge_outer m o =
  (map (fun r => (fst r, snd r + score_or_zero (fst r) o)) m ++
   map (fun r => (fst r, 0 + snd r)) (filter (fun r => negb (mem (fst r) (keys m))) o))%list.
Proof.
  intro Hnd. unfold merge_outer. f_equal.
  - apply flat_map_singleton. intros [k s]. simpl.
    destruct (in_dec String.string_dec k (keys o)) as [Hin | Hin].
    + destruct (in_keys k o Hin) as [s' Hs'].
      rewrite (lookup_all_in k s' o Hnd Hs'), (score_or_zero_in k s' o Hnd Hs'). reflexivity.
    + rewrite (lookup_all_notin k o Hin), (score_or_zero_notin k o Hin). reflexivity.
  - apply map_ext. intros [k s]. reflexivity.
Qed.

Lemma merge_inner_closed (m o : frame) :
  NoDup (keys o) ->
  merge_inner m o =
  map (fun r => (fst r, snd r + score_or_zero (fst r) o)) (filter (fun r => mem (fst r) (keys o)) m).
Proof.
  intro Hnd. unfold merge_inner.
  apply flat_map_filter. intros [k s]. simpl.
  destruct (in_dec String.string_dec k (keys o)) as [Hin | Hin].
  - destruct (in_keys k o Hin) as [s' Hs'].
    rewrite (lookup_all_in k s' o Hnd Hs'), (score_or_zero_in k s' o Hnd Hs').
    rewrite (proj2 (mem_iff k (keys o)) Hin). reflexivity.
  - rewrite (lookup_all_notin k o Hin).
    destruct (mem k (keys o)) eqn:E; [apply mem_iff in E; contradiction | reflexivity].
Qed.

Lemma keys_map_same (f : string * Q -> Q) (df : frame) :
  keys (map (fun r => (fst r, f r)) df) = keys df.
Proof. unfold keys. rewrite map_map. reflexivity. Qed.

Lemma nodup_keys_filter (p : string * Q -> bool) (df : frame) :
  NoDup (keys df) -> NoDup (keys (filter p df)).
Proof.
  induction df as [|r df IH]; simpl; intro H; [constructor|].
  inversion H as [|x l Hx Hnd Heq]; subst.
  destruct (p r); simpl; [constructor|]; auto.
  intro Hin; apply Hx. unfold keys in *. apply in_map_iff in Hin as [r' [He Hin]].
  apply filter_In in Hin as [Hin _]. rewrite <- He. apply in_map; exact Hin.
Qed.

Lemma in_keys_filter (p : string -> bool) (k : string) (df : frame) :
  In k (keys (filter (fun r => p (fst r)) df)) <-> In k (keys df) /\ p k = true.
Proof.
  unfold keys. split.
  - intro H. apply in_map_iff in H as [r [<- Hin]]. apply filter_In in Hin as [Hin Hp].
    split; [apply in_map; exact Hin | exact Hp].
  - intros [H Hp]. apply in_map_iff in H as [r [<- Hin]].
    apply in_map. apply filter_In. split; assumption.
Qed.


Lemma union_step (m o : frame) (dfs : list frame) :
  union_inv m dfs -> NoDup (keys o) -> union_inv (merge_outer m o) (dfs ++ [o]).
Proof.
  intros (Hnd & Hk & Hs) Ho. rewrite (merge_outer_closed m o Ho).
  set (p := fun r : string * Q => negb (mem (fst r) (keys m))).
  assert (Hkeys : forall k, In k (keys (filter p o)) <-> In k (keys o) /\ ~ In k (keys m)).
  { intro k. unfold p. rewrite (in_keys_filter (fun k => negb (mem k (keys m)))).
    rewrite negb_true_iff. split; intros [H1 H2]; split; auto.
    - intro H. apply mem_iff in H. congruence.
    - destruct (mem k (keys m)) eqn:E; [apply mem_iff in E; contradiction | reflexivity]. }
  split; [|split].
  - unfold keys at 1. rewrite map_app. fold (keys (map (fun r => (fst r, snd r + score_or_zero (fst r) o)) m)).
    fold (keys (map (fun r => (fst r, 0 + snd r)) (filter p o))).
    rewrite !keys_map_same. apply NoDup_app; [exact Hnd | apply nodup_keys_filter; exact Ho |].
    intros k H1 H2. apply Hkeys in H2 as [_ H2]. contradiction.
  - intro k. unfold keys at 1. rewrite map_app, in_app_iff.
    fold (keys (map (fun r => (fst r, snd r + score_or_zero (fst r) o)) m)).
    fold (keys (map (fun r => (fst r, 0 + snd r)) (filter p o))).
    rewrite !keys_map_same, Hkeys, Hk. split.
    + intros [[df [Hdf Hin]] | [Hin _]].
      * exists df. split; [apply in_app_iff; left; exact Hdf | exact Hin].
      * exists o. split; [apply in_app_iff; right; left; reflexivity | exact Hin].
    + intros [df [Hdf Hin]]. apply in_app_iff in Hdf as [Hdf | [<- | []]].
      * left. exists df. auto.
      * destruct (in_dec String.string_dec k (keys m)) as [Hm | Hm].
        -- left. apply Hk; exact Hm.
        -- right. split; [assumption | rewrite <- Hk; assumption].
  - intros k s Hin. rewrite spec_combined_score_app. apply in_app_iff in Hin as [Hin | Hin].
    + apply in_map_iff in Hin as [[k' s1] [Heq Hin]]. simpl in Heq. injection Heq as <- <-.
      rewrite (Hs _ _ Hin). reflexivity.
    + apply in_map_iff in Hin as [[k' s1] [Heq Hin]]. simpl in Heq. injection Heq as <- <-.
      assert (Hk' : In k' (keys (filter p o))) by (unfold keys; apply in_map_iff; exists (k', s1); auto).
      apply Hkeys in Hk' as [_ Hnm].
      apply filter_In in Hin as [Hin _].
      rewrite (score_or_zero_in k' s1 o Ho Hin).
      unfold spec_combined_score. rewrite fold_scores_absent; [reflexivity|].
      intros df Hdf Hin'. apply Hnm, Hk. exists df; auto.
Qed.

Lemma inter_step (m o : frame) (dfs : list frame) :
  inter_inv m dfs -> NoDup (keys o) -> inter_inv (merge_inner m o) (dfs ++ [o]).
Proof.
  intros (Hnd & Hk & Hs) Ho. rewrite (merge_inner_closed m o Ho).
  split; [|split].
  - rewrite keys_map_same. apply nodup_keys_filter; exact Hnd.
  - intro k. rewrite keys_map_same, (in_keys_filter (fun k => mem k (keys o))), mem_iff, Hk.
    split.
    + intros [Hall Ho'] df Hdf. apply in_app_iff in Hdf as [Hdf | [<- | []]]; auto.
    + intro Hall. split.
      * intros df Hdf. apply Hall, in_app_iff; left; exact Hdf.
      * apply Hall, in_app_iff; right; left; reflexivity.
  - intros k s Hin. rewrite spec_combined_score_app.
    apply in_map_iff in Hin as [[k' s1] [Heq Hin]]. simpl in Heq. injection Heq as <- <-.
    apply filter_In in Hin as [Hin _]. rewrite (Hs _ _ Hin). reflexivity.
Qed.

Lemma init_inv (first : frame) :
  NoDup (keys first) -> union_inv first [first] /\ inter_inv first [first].
Proof.
  intro Hnd.
  assert (Hsc : forall k s, In (k, s) first -> s == spec_combined_score k [first]).
  { intros k s Hin. unfold spec_combined_score. simpl.
    rewrite (score_or_zero_in k s first Hnd Hin). ring. }
  split; (split; [exact Hnd | split; [|exact Hsc]]); intro k.
  - split; [intro H; exists first; split; [left; reflexivity | exact H] |].
    intros [df [[<- | []] H]]; exact H.
  - split; [intros H df [<- | []]; exact H | intro H; apply H; left; reflexivity].
Qed.

Lemma merge_preds_inv (flexible : bool) (rest : list frame) :
  forall m dfs,
  (forall df, In df rest -> NoDup (keys df)) ->
  (if flexible then union_inv m dfs else inter_inv m dfs) ->
  (if flexible then union_inv (merge_preds flexible m rest) (dfs ++ rest)
   else inter_inv (merge_preds flexible m rest) (dfs ++ rest)).
Proof.
  unfold merge_preds.
  induction rest as [|o rest IH]; simpl; intros m dfs Hnd H; [rewrite app_nil_r; exact H|].
  replace (dfs ++ o :: rest)%list with ((dfs ++ [o]) ++ rest)%list
    by (rewrite <- app_assoc; reflexivity).
  apply IH; [intros; apply Hnd; auto|].
  destruct flexible; [apply union_step | apply inter_step]; auto.
Qed.

End MergeFacts.

(** Claim C2.  When every criterion's frame has distinct labels (as the
    adapter's prediction frames do), the merge of [get_matching_recipes]
    yields: with [flexible = true], exactly the union of the labels, each
    once, scored by the sum over the frames of its score there (0 where it
    is absent); with [flexible = false], exactly the labels present in every
    frame, each once, scored by the same sum. *)
Theorem C2_merge_union_intersection (first : Ranking.frame) (rest : list Ranking.frame) :
  (forall df, In df (first :: rest) -> NoDup (map fst df)) ->
  (NoDup (map fst (Ranking.merge_preds true first rest)) /\
   (forall k, In k (map fst (Ranking.merge_preds true first rest)) <->
              exists df, In df (first :: rest) /\ In k (map fst df)) /\
   (forall k s, In (k, s) (Ranking.merge_preds true first rest) ->
                (s == Ranking.spec_combined_score k (first :: rest))%Q)) /\
  (NoDup (map fst (Ranking.merge_preds false first rest)) /\
   (forall k, In k (map fst (Ranking.merge_preds false first rest)) <->
              forall df, In df (first :: rest) -> In k (map fst df)) /\
   (forall k s, In (k, s) (Ranking.merge_preds false first rest) ->
                (s == Ranking.spec_combined_score k (first :: rest))%Q)).
Proof.
  intro Hnd.
  destruct (MergeFacts.init_inv first (Hnd first (or_introl eq_refl))) as [Hu Hi].
  split.
  - exact (MergeFacts.merge_preds_inv true rest first [first]
             (fun df H => Hnd df (or_intror H)) Hu).
  - exact (MergeFacts.merge_preds_inv false rest first [first]
             (fun df H => Hnd df (or_intror H)) Hi).
Qed.

Lemma C2_merge_union_intersection_witness :
  (forall df, In df [[("recipe_1", 1 # 2); ("recipe_2", 1)]; [("recipe_2", 1 # 4); ("recipe_3", 1)]] ->
              NoDup (map fst df)) /\
  NoDup (map fst (Ranking.merge_preds true [("recipe_1", 1 # 2); ("recipe_2", 1)]
                    [[("recipe_2", 1 # 4); ("recipe_3", 1)]])).
Proof.
  assert (H : forall df, In df [[("recipe_1", 1 # 2); ("recipe_2", 1)];
                               [("recipe_2", 1 # 4); ("recipe_3", 1)]] -> NoDup (map fst df)).
  { intros df [<- | [<- | []]]; simpl;
      (constructor; [simpl; intros [H | []]; discriminate | constructor; [intros [] | constructor]]). }
  split; [exact H|].
  exact (proj1 (proj1 (C2_merge_union_intersection _ _ H))).
Defined.

(** Claim C9 (as stated: fails).  The cell [('recipe', 0x1000...0)]
    parses as a [(type, value)] pair, but its integer has more than 4300
    decimal digits: [f"{t[1]}"] raises [ValueError], which is caught, and
    the input comes back unchanged instead of [type ++ "_" ++ value]. *)
Lemma C9_counterexample :
  example_literal_eval big_hex_label =
    Some (Canonical.PyTuple [Canonical.PyStr "recipe"; Canonical.PyInt (2 ^ 14400)]) /\
  Canonical.tuple_to_canonical example_literal_eval (fun _ _ => None) (fun _ => None) big_hex_label
    = big_hex_label /\
  big_hex_label <> "recipe" ++ "_" ++ NilEmpty.string_of_int (Z.to_int (2 ^ 14400)).
Proof.
  split; [vm_compute; reflexivity|]. split; [vm_compute; reflexivity|].
  intro H. apply (f_equal (String.get 0)) in H. vm_compute in H. discriminate H.
Qed.

(** Claim C9 (amended).  [tuple_to_canonical] returns, for every input,
    either the input itself or the formats of the items 0 and 1 of the
    parsed value joined by ["_"].  A parsed pair [(type, value)] of strings
    gives [type ++ "_" ++ value]; a pair of a string and an integer gives
    [type ++ "_" ++ str(value)] when the integer has at most 4300 digits
    and the input unchanged otherwise; a parse failure gives the input
    unchanged. *)
Theorem C9_tuple_to_canonical_total literal_eval other_getitem other_format (s : string) :
  let tc := Canonical.tuple_to_canonical literal_eval other_getitem other_format in
  (tc s = s \/
   exists t a b x y, literal_eval s = Some t /\
     Canonical.getitem other_getitem t 0 = Some a /\ Canonical.getitem other_getitem t 1 = Some b /\
     Canonical.format other_format a = Some x /\ Canonical.format other_format b = Some y /\
     tc s = x ++ "_" ++ y) /\
  (forall ty v, literal_eval s = Some (Canonical.PyTuple [Canonical.PyStr ty; Canonical.PyStr v]) ->
     tc s = ty ++ "_" ++ v) /\
  (forall ty z, literal_eval s = Some (Canonical.PyTuple [Canonical.PyStr ty; Canonical.PyInt z]) ->
     (Z.abs z < 10 ^ Canonical.int_max_str_digits)%Z ->
     tc s = ty ++ "_" ++ NilEmpty.string_of_int (Z.to_int z)) /\
  (forall ty z, literal_eval s = Some (Canonical.PyTuple [Canonical.PyStr ty; Canonical.PyInt z]) ->
     (10 ^ Canonical.int_max_str_digits <= Z.abs z)%Z -> tc s = s) /\
  (literal_eval s = None -> tc s = s).
Proof.
  intro tc. unfold tc, Canonical.tuple_to_canonical. split; [|split; [|split; [|split]]].
  - destruct (literal_eval s) as [t|]; [|left; reflexivity].
    destruct (Canonical.getitem other_getitem t 0) as [a|] eqn:Ha; [|left; reflexivity].
    destruct (Canonical.getitem other_getitem t 1) as [b|] eqn:Hb; [|left; reflexivity].
    destruct (Canonical.format other_format a) as [x|] eqn:Hx; [|left; reflexivity].
    destruct (Canonical.format other_format b) as [y|] eqn:Hy; [|left; reflexivity].
    right. exists t, a, b, x, y. repeat split; assumption.
  - intros ty v ->. reflexivity.
  - intros ty z -> Hz. cbn [Canonical.getitem nth_error Canonical.format].
    rewrite (proj2 (Z.ltb_lt _ _) Hz). reflexivity.
  - intros ty z -> Hz. cbn [Canonical.getitem nth_error Canonical.format].
    rewrite (proj2 (Z.ltb_ge _ _) Hz). reflexivity.
  - intros ->. reflexivity.
Qed.

Lemma C9_tuple_to_canonical_total_witness :
  example_literal_eval "('recipe', 42)" =
    Some (Canonical.PyTuple [Canonical.PyStr "recipe"; Canonical.PyInt 42]) /\
  (Z.abs 42 < 10 ^ Canonical.int_max_str_digits)%Z /\
  Canonical.tuple_to_canonical example_literal_eval (fun _ _ => None) (fun _ => None)
    "('recipe', 42)" = "recipe_42".
Proof.
  assert (H1 : example_literal_eval "('recipe', 42)" =
    Some (Canonical.PyTuple [Canonical.PyStr "recipe"; Canonical.PyInt 42])) by reflexivity.
  assert (H2 : (Z.abs 42 < 10 ^ Canonical.int_max_str_digits)%Z) by (vm_compute; reflexivity).
  split; [exact H1 | split; [exact H2|]].
  exact (proj1 (proj2 (proj2 (C9_tuple_to_canonical_total example_literal_eval (fun _ _ => None)
                                (fun _ => None) "('recipe', 42)"))) "recipe" 42%Z H1 H2).
Defined.

(** ** Further properties of the string helpers and of the builder *)

Module StrFacts.

Lemma append_nil_r (s : string) : (s ++ "") = s.
Proof. induction s as [|c s IH]; simpl; [reflexivity | rewrite IH; reflexivity]. Qed.

Lemma append_assoc (a b c : string) : ((a ++ b) ++ c) = (a ++ (b ++ c)).
Proof. induction a as [|x a IH]; simpl; [reflexivity | rewrite IH; reflexivity]. Qed.

Lemma rev_str_app (s acc : string) : Py.rev_str s acc = (Py.rev_str s "" ++ acc).
Proof.
  revert acc; induction s as [|c s IH]; intro acc; simpl; [reflexivity|].
  rewrite (IH (String c acc)), (IH (String c "")), append_assoc. reflexivity.
Qed.

Lemma rev_str_rev_str (s acc : string) :
  Py.rev_str (Py.rev_str s acc) "" = (Py.rev_str acc "" ++ s).
Proof.
  revert acc; induction s as [|c s IH]; intro acc; simpl.
  - symmetry; apply append_nil_r.
  - rewrite IH. simpl. rewrite (rev_str_app acc (String c "")), append_assoc. reflexivity.
Qed.

Lemma rev_str_involutive (s : string) : Py.rev_str (Py.rev_str s "") "" = s.
Proof. rewrite rev_str_rev_str. reflexivity. Qed.

Lemma lstrip_good (s : string) : good_start (Py.lstrip s) = true.
Proof.
  induction s as [|c s IH]; simpl; [reflexivity|].
  destruct (Py.is_space c) eqn:Hc; [exact IH | simpl; rewrite Hc; reflexivity].
Qed.

Lemma lstrip_id (s : string) : good_start s = true -> Py.lstrip s = s.
Proof.
  destruct s as [|c s]; simpl; [reflexivity|].
  destruct (Py.is_space c); simpl; [discriminate | reflexivity].
Qed.

Lemma good_start_app (x y : string) : x <> "" -> good_start (x ++ y) = good_start x.
Proof. destruct x; simpl; [intro H; congruence | reflexivity]. Qed.

Lemma rev_nonempty (s : string) : s <> "" -> Py.rev_str s "" <> "".
Proof.
  destruct s as [|c s]; [congruence|]. intros _. simpl.
  rewrite rev_str_app. destruct (Py.rev_str s ""); simpl; discriminate.
Qed.

Lemma lstrip_good_end (s : string) :
  good_start (Py.rev_str s "") = true -> good_start (Py.rev_str (Py.lstrip s) "") = true.
Proof.
  induction s as [|c s IH]; simpl; [auto|]. intro H.
  destruct (Py.is_space c) eqn:Hc; [|exact H].
  rewrite rev_str_app in H.
  destruct s as [|c' s'].
  - simpl in H. rewrite Hc in H. discriminate.
  - rewrite good_start_app in H by (apply rev_nonempty; discriminate).
    apply IH. exact H.
Qed.

Lemma strip_shape (s : string) :
  good_start (Py.strip s) = true /\ good_start (Py.rev_str (Py.strip s) "") = true.
Proof.
  unfold Py.strip, Py.rstrip. split.
  - apply lstrip_good_end. rewrite rev_str_involutive. apply lstrip_good.
  - rewrite rev_str_involutive. apply lstrip_good.
Qed.

Lemma strip_id (s : string) :
  good_start s = true -> good_start (Py.rev_str s "") = true -> Py.strip s = s.
Proof.
  intros H1 H2. unfold Py.strip, Py.rstrip.
  rewrite (lstrip_id s H1), (lstrip_id _ H2). apply rev_str_involutive.
Qed.

Lemma strip_idem (s : string) : Py.strip (Py.strip s) = Py.strip s.
Proof. destruct (strip_shape s) as [H1 H2]. apply strip_id; assumption. Qed.

Lemma lstrip_chars (s : string) (x : ascii) :
  In x (list_ascii_of_string (Py.lstrip s)) -> In x (list_ascii_of_string s).
Proof.
  induction s as [|c s IH]; simpl; [auto|].
  destruct (Py.is_space c); simpl; auto.
Qed.

Lemma rev_str_chars (s acc : string) (x : ascii) :
  In x (list_ascii_of_string (Py.rev_str s acc)) ->
  In x (list_ascii_of_string s) \/ In x (list_ascii_of_string acc).
Proof.
  revert acc; induction s as [|c s IH]; simpl; intros acc H; [right; exact H|].
  destruct (IH _ H) as [H' | [H' | H']]; auto.
Qed.

Lemma strip_chars (s : string) (x : ascii) :
  In x (list_ascii_of_string (Py.strip s)) -> In x (list_ascii_of_string s).
Proof.
  unfold Py.strip, Py.rstrip. intro H.
  destruct (rev_str_chars _ _ _ H) as [H1 | []].
  apply lstrip_chars in H1.
  destruct (rev_str_chars _ _ _ H1) as [H2 | []].
  exact (lstrip_chars _ _ H2).
Qed.

Lemma split_chars (d : ascii) (s t : string) :
  In t (Py.split d s) -> ~ In d (list_ascii_of_string t).
Proof.
  revert t; induction s as [|c s IH]; intro t; simpl.
  - intros [<- | []]; simpl; tauto.
  - destruct (Ascii.eqb c d) eqn:Hcd.
    + intros [<- | Hin]; [simpl; tauto | exact (IH t Hin)].
    + destruct (Py.split d s) as [|p ps] eqn:Hs.
      * intros [<- | []]. simpl. intros [H | []]. subst c.
        rewrite Ascii.eqb_refl in Hcd. discriminate.
      * intros [<- | Hin].
        -- simpl. intros [H | H].
           ++ subst c. rewrite Ascii.eqb_refl in Hcd. discriminate.
           ++ apply (IH p); [try rewrite Hs; left; reflexivity | exact H].
        -- apply IH. try rewrite Hs. right. exact Hin.
Qed.

Lemma split_and_clean_tokens (value : string) (delimiter : ascii) (t : string) :
  In t (Builder.split_and_clean value delimiter) ->
  t <> "" /\ Py.strip t = t /\ ~ In delimiter (list_ascii_of_string t).
Proof.
  unfold Builder.split_and_clean. intro H.
  apply in_map_iff in H as [v [<- Hv]]. apply filter_In in Hv as [Hv Hne].
  split; [|split].
  - intro E. rewrite E in Hne. discriminate Hne.
  - apply strip_idem.
  - intro Hd. apply strip_chars in Hd. exact (split_chars _ _ _ Hv Hd).
Qed.

Lemma split_and_clean_clean (value : string) (delimiter : ascii) (t : string) :
  In t (Builder.split_and_clean value delimiter) -> clean_value t.
Proof. intro H. destruct (split_and_clean_tokens _ _ _ H) as (H1 & H2 & _). split; assumption. Qed.

End StrFacts.

Module BuilderShape.
Import Builder.

Lemma has_node_true (n : node) (G : graph) : has_node n G = true -> In n (g_nodes G).
Proof.
  unfold has_node. intro H. apply existsb_exists in H as [m [Hm He]].
  apply BuilderFacts.node_eqb_eq in He. subst m. exact Hm.
Qed.

Lemma has_node_false (n : node) (G : graph) : has_node n G = false -> ~ In n (g_nodes G).
Proof.
  unfold has_node. intros H Hin.
  assert (existsb (node_eqb n) (g_nodes G) = true)
    by (apply existsb_exists; exists n; split; [exact Hin | apply BuilderFacts.node_eqb_eq; reflexivity]).
  congruence.
Qed.

Lemma add_node_nodes (n : node) (G : graph) (x : node) :
  In x (g_nodes (add_node n G)) <-> In x (g_nodes G) \/ x = n.
Proof.
  unfold add_node. destruct (has_node n G) eqn:H; simpl.
  - split; [tauto|]. intros [Hx | ->]; [exact Hx | apply has_node_true; exact H].
  - rewrite in_app_iff. simpl. split; intros [Hx | Hx]; auto; destruct Hx as [-> | []]; auto.
Qed.

Lemma add_node_nodup (n : node) (G : graph) :
  NoDup (g_nodes G) -> NoDup (g_nodes (add_node n G)).
Proof.
  unfold add_node. destruct (has_node n G) eqn:H; simpl; intro Hnd; [exact Hnd|].
  apply NoDup_app; [exact Hnd | constructor; [intros [] | constructor] |].
  intros a Ha [<- | []]. exact (has_node_false _ _ H Ha).
Qed.

Lemma add_edge_g_nodes (u v : node) (r : string) (G : graph) :
  g_nodes (add_edge u v r G) = g_nodes (add_node v (add_node u G)).
Proof. unfold add_edge. destruct (existsb _ _); reflexivity. Qed.

Lemma add_edge_nodes (u v : node) (r : string) (G : graph) (x : node) :
  In x (g_nodes (add_edge u v r G)) <-> In x (g_nodes G) \/ x = u \/ x = v.
Proof. rewrite add_edge_g_nodes, !add_node_nodes. tauto. Qed.

Lemma add_edge_edges (u v : node) (r : string) (G : graph) (a b : node) (r' : string) :
  In (a, b, r') (g_edges (add_edge u v r G)) ->
  (exists r0, In (a, b, r0) (g_edges G)) \/ (a = u /\ b = v).
Proof.
  unfold add_edge. rewrite !BuilderFacts.add_node_edges.
  destruct (existsb (same_pair u v) (g_edges G)); simpl.
  - intro H. apply in_map_iff in H as [[[a0 b0] r0] [He Hin]].
    destruct (same_pair u v (a0, b0, r0)); injection He as -> -> ->; left; eauto.
  - rewrite in_app_iff. intros [H | [H | []]]; [left; eauto | right].
    injection H as -> -> ->. auto.
Qed.

Lemma fold_pres {A : Type} (P : state -> Prop) (f : state -> A -> state) (l : list A) (st : state) :
  (forall st a, In a l -> P st -> P (f st a)) -> P st -> P (fold_left f l st).
Proof.
  revert st. induction l as [|a l IH]; simpl; intros st Hf Hst; [exact Hst|].
  apply IH; [intros; apply Hf; auto | apply Hf; auto].
Qed.

Lemma link_shape (ids : list Z) (rid : Z) (t x r : string) (st : state) :
  builder_shape ids st -> In rid ids -> clean_value x ->
  builder_shape ids (link (RecipeNode rid) (AttrNode t x) r st).
Proof.
  destruct st as [G T]. simpl. intros (Hnd & Hend & Hrec & Hattr & Htr) Hrid Hx.
  set (G1 := if negb (has_node (AttrNode t x) G) then add_node (AttrNode t x) G else G).
  assert (HG1 : forall y, In y (g_nodes G1) <-> In y (g_nodes G) \/ y = AttrNode t x).
  { intro y. unfold G1. destruct (has_node (AttrNode t x) G) eqn:Hh; simpl.
    - split; [tauto|]. intros [Hy | ->]; [exact Hy | apply has_node_true; exact Hh].
    - apply add_node_nodes. }
  assert (HG1nd : NoDup (g_nodes G1))
    by (unfold G1; destruct (negb _); [apply add_node_nodup; exact Hnd | exact Hnd]).
  assert (HG1e : g_edges G1 = g_edges G)
    by (unfold G1; destruct (negb _); [apply BuilderFacts.add_node_edges | reflexivity]).
  assert (Hn : forall y, In y (g_nodes (add_edge (RecipeNode rid) (AttrNode t x) r G1)) <->
                         In y (g_nodes G) \/ y = AttrNode t x).
  { intro y. rewrite add_edge_nodes, HG1. split; [|tauto].
    intros [H | [-> | H]]; auto. left. apply Hrec. exact Hrid. }
  split; [|split; [|split; [|split]]].
  - rewrite add_edge_g_nodes. apply add_node_nodup, add_node_nodup, HG1nd.
  - intros a b r' He. rewrite !Hn.
    destruct (add_edge_edges _ _ _ _ _ _ _ He) as [[r0 He0] | [-> ->]].
    + rewrite HG1e in He0. destruct (Hend _ _ _ He0). auto.
    + split; [left; apply Hrec; exact Hrid | right; reflexivity].
  - intro z. rewrite Hn. split; [intros [H | H]; [apply Hrec; exact H | discriminate] |].
    intro H. left. apply Hrec. exact H.
  - intros t' x' H. apply Hn in H as [H | H]; [exact (Hattr _ _ H) | injection H as -> ->; exact Hx].
  - intros h r' t' H. apply in_app_iff in H as [H | [H | []]]; [exact (Htr _ _ _ H)|].
    injection H as <- <- <-. split; [exists rid; auto | exists t, x; auto].
Qed.

Lemma add_node_shape (ids : list Z) (rid : Z) (G : graph) (T : list triple) :
  builder_shape ids (G, T) -> builder_shape (ids ++ [rid]) (add_node (RecipeNode rid) G, T).
Proof.
  simpl. intros (Hnd & Hend & Hrec & Hattr & Htr).
  rewrite BuilderFacts.add_node_edges.
  split; [|split; [|split; [|split]]].
  - apply add_node_nodup; exact Hnd.
  - intros u v r He. rewrite !add_node_nodes. destruct (Hend _ _ _ He); auto.
  - intro z. rewrite add_node_nodes, Hrec, in_app_iff. simpl. split.
    + intros [H | H]; [auto | injection H as ->; auto].
    + intros [H | [-> | []]]; auto.
  - intros t x H. apply add_node_nodes in H as [H | H]; [exact (Hattr _ _ H) | discriminate].
  - intros h r t H. destruct (Htr _ _ _ H) as [[z [-> Hz]] Ht].
    split; [exists z; split; [reflexivity | apply in_or_app; left; exact Hz] | exact Ht].
Qed.

Section Steps.

(** A property of builder states that every link from the recipe node
    [RecipeNode rid] to an attribute node with a clean value keeps. *)
Variable P : state -> Prop.
Variable rid : Z.
Hypothesis Hlink : forall st t x r, P st -> clean_value x ->
  P (link (RecipeNode rid) (AttrNode t x) r st).

Lemma single_step_pres (d : details) (st : state) (m : string * (string * string)) :
  P st -> P (single_step (RecipeNode rid) d st m).
Proof.
  destruct m as [col [rel ty]]. unfold single_step. intro Hst.
  destruct (present (get d col)) eqn:Hp; [|exact Hst].
  apply Hlink; [exact Hst|]. split; [|apply StrFacts.strip_idem].
  unfold present in Hp. apply andb_true_iff in Hp as [_ Hp].
  intro E. rewrite E in Hp. discriminate Hp.
Qed.

Lemma health_step_pres (d : details) (st : state) :
  P st -> P (health_step (RecipeNode rid) d st).
Proof.
  unfold health_step. intro Hst. destruct (present _); [|exact Hst].
  apply fold_pres; [|exact Hst]. intros st' e He Hst'.
  destruct (negb (e =? "")); [|exact Hst'].
  apply Hlink; [exact Hst' | exact (StrFacts.split_and_clean_clean _ _ _ He)].
Qed.

Lemma list_step_pres (d : details) (st : state) (m : string * (string * string * ascii)) :
  P st -> P (list_step (RecipeNode rid) d st m).
Proof.
  destruct m as [col [[rel ty] dl]]. unfold list_step. intro Hst.
  destruct (present _); [|exact Hst].
  apply fold_pres; [|exact Hst]. intros st' e He Hst'.
  destruct (negb (e =? "")); [|exact Hst'].
  apply Hlink; [exact Hst' | exact (StrFacts.split_and_clean_clean _ _ _ He)].
Qed.

Lemma ingredient_step_pres (d : details) (st : state) :
  P st -> P (ingredient_step (RecipeNode rid) d st).
Proof.
  unfold ingredient_step. intro Hst. destruct (present _); [|exact Hst].
  apply fold_pres; [|exact Hst]. intros st' e He Hst'.
  destruct (negb (e =? "")); [|exact Hst'].
  apply Hlink; [exact Hst'|].
  destruct (StrFacts.split_and_clean_clean _ _ _ He) as [Hne Hs]. split.
  - destruct e; [congruence | discriminate].
  - rewrite <- BuilderEquations.lower_strip, Hs. reflexivity.
Qed.

Lemma process_recipe_pres (d : details) (G : graph) (T : list triple) :
  P (add_node (RecipeNode rid) G, T) -> P (process_recipe (G, T) (rid, d)).
Proof.
  intro H. unfold process_recipe.
  apply ingredient_step_pres.
  apply fold_pres; [intros; apply list_step_pres; assumption|].
  apply health_step_pres.
  apply fold_pres; [intros; apply single_step_pres; assumption|].
  exact H.
Qed.

End Steps.

Lemma create_shape_gen (l : list (Z * details)) (ids : list Z) (st : state) :
  builder_shape ids st ->
  builder_shape (ids ++ map fst l) (fold_left process_recipe l st).
Proof.
  revert ids st. induction l as [|[rid d] l IH]; simpl; intros ids st H.
  - rewrite app_nil_r. exact H.
  - replace (ids ++ rid :: map fst l)%list with ((ids ++ [rid]) ++ map fst l)%list
      by (rewrite <- app_assoc; reflexivity).
    apply IH. destruct st as [G T].
    apply (process_recipe_pres (builder_shape (ids ++ [rid])%list) rid).
    + intros st t x r Hs Hx. apply link_shape; [exact Hs | apply in_or_app; right; left; reflexivity | exact Hx].
    + apply add_node_shape. exact H.
Qed.

Lemma create_shape (recipes : list (Z * details)) :
  builder_shape (map fst recipes) (create_graph_and_triples recipes).
Proof.
  apply (create_shape_gen recipes []). simpl.
  split; [constructor | split; [intros _ _ _ [] | split; [intro z; simpl; tauto | split; [intros _ _ [] | intros _ _ _ []]]]].
Qed.

End BuilderShape.

Module BuilderTriples.
Import Builder.

Lemma sep_link (u v : node) (r : string) : triples_sep (link u v r).
Proof. intros G T. reflexivity. Qed.

Lemma sep_id : triples_sep (fun st => st).
Proof. intros G T. simpl. rewrite app_nil_r. reflexivity. Qed.

Lemma sep_comp (F F' : state -> state) :
  triples_sep F -> triples_sep F' -> triples_sep (fun st => F' (F st)).
Proof.
  intros HF HF' G T.
  rewrite (HF G T), (HF' _ (T ++ _)%list), (HF G []), (HF' _ ([] ++ _)%list),
    (HF empty_graph []), (HF' _ ([] ++ _)%list).
  simpl. rewrite app_assoc. reflexivity.
Qed.

Lemma sep_fold {A : Type} (f : state -> A -> state) (l : list A) :
  (forall a, triples_sep (fun st => f st a)) -> triples_sep (fun st => fold_left f l st).
Proof.
  intro Hf. induction l as [|a l IH]; simpl; [apply sep_id|].
  apply (sep_comp (fun st => f st a) (fun st => fold_left f l st)); [apply Hf | exact IH].
Qed.

Lemma sep_process (x : Z * details) : triples_sep (fun st => process_recipe st x).
Proof.
  destruct x as [rid d].
  set (rn := RecipeNode rid).
  set (F := fun st => ingredient_step rn d
              (fold_left (list_step rn d) list_attributes
                 (health_step rn d (fold_left (single_step rn d) attribute_mappings st)))).
  assert (HF : triples_sep F).
  { unfold F.
    apply (sep_comp (fun st => fold_left (list_step rn d) list_attributes
                      (health_step rn d (fold_left (single_step rn d) attribute_mappings st)))
                    (ingredient_step rn d)).
    2: { unfold ingredient_step. destruct (present _); [|apply sep_id].
         apply sep_fold. intro e. destruct (negb (e =? "")); [apply sep_link | apply sep_id]. }
    apply (sep_comp (fun st => health_step rn d (fold_left (single_step rn d) attribute_mappings st))
                    (fun st => fold_left (list_step rn d) list_attributes st)).
    2: { apply sep_fold. intros [col [[rel ty] dl]]. unfold list_step.
         destruct (present _); [|apply sep_id].
         apply sep_fold. intro e. destruct (negb (e =? "")); [apply sep_link | apply sep_id]. }
    apply (sep_comp (fun st => fold_left (single_step rn d) attribute_mappings st)
                    (health_step rn d)).
    2: { unfold health_step. destruct (present _); [|apply sep_id].
         apply sep_fold. intro e. destruct (negb (e =? "")); [apply sep_link | apply sep_id]. }
    apply sep_fold. intros [col [rel ty]]. unfold single_step.
    destruct (present _); [apply sep_link | apply sep_id]. }
  intros G T.
  change (process_recipe (G, T) (rid, d)) with (F (add_node rn G, T)).
  change (process_recipe (G, []) (rid, d)) with (F (add_node rn G, [])).
  change (process_recipe (empty_graph, []) (rid, d)) with (F (add_node rn empty_graph, [])).
  rewrite (HF _ T), (HF _ []), (HF (add_node rn empty_graph) []). reflexivity.
Qed.

Lemma fold_process_snd (l : list (Z * details)) (G : graph) (T : list triple) :
  snd (fold_left process_recipe l (G, T)) =
  (T ++ flat_map (fun x => snd (process_recipe (empty_graph, []) x)) l)%list.
Proof.
  revert G T. induction l as [|x l IH]; simpl; intros G T; [symmetry; apply app_nil_r|].
  rewrite (sep_process x G T), IH, app_assoc. reflexivity.
Qed.

End BuilderTriples.

Module RankingMore.
Import Ranking MergeInvariants.
Open Scope Q_scope.

(** Normalisation. *)

Lemma fold_min_le (l : list Q) (a : Q) :
  fold_left Qmin l a <= a /\ forall y, In y l -> fold_left Qmin l a <= y.
Proof.
  revert a; induction l as [|b l IH]; simpl; intro a.
  - split; [apply Qle_refl | intros _ []].
  - destruct (IH (Qmin a b)) as [H1 H2]. split.
    + eapply Qle_trans; [exact H1 | apply Q.le_min_l].
    + intros y [<- | Hy]; [eapply Qle_trans; [exact H1 | apply Q.le_min_r] | exact (H2 y Hy)].
Qed.

Lemma fold_max_ge (l : list Q) (a : Q) :
  a <= fold_left Qmax l a /\ forall y, In y l -> y <= fold_left Qmax l a.
Proof.
  revert a; induction l as [|b l IH]; simpl; intro a.
  - split; [apply Qle_refl | intros _ []].
  - destruct (IH (Qmax a b)) as [H1 H2]. split.
    + eapply Qle_trans; [apply Q.le_max_l | exact H1].
    + intros y [<- | Hy]; [eapply Qle_trans; [apply Q.le_max_r | exact H1] | exact (H2 y Hy)].
Qed.

Lemma min_max_scale_bounds (l : list Q) (y : Q) :
  In y (min_max_scale l) -> 0 <= y /\ y <= 1.
Proof.
  destruct l as [|x xs]; [intros []|]. unfold min_max_scale. cbv zeta.
  intro H. apply in_map_iff in H as [v [<- Hv]].
  set (mn := list_min x xs). set (mx := list_max x xs).
  assert (Hmn : mn <= v).
  { unfold mn, list_min. destruct (fold_min_le xs x) as [H1 H2].
    destruct Hv as [<- | Hv]; [exact H1 | exact (H2 v Hv)]. }
  assert (Hmx : v <= mx).
  { unfold mx, list_max. destruct (fold_max_ge xs x) as [H1 H2].
    destruct Hv as [<- | Hv]; [exact H1 | exact (H2 v Hv)]. }
  destruct (Qeq_bool (mx - mn) 0) eqn:E.
  - apply Qeq_bool_iff in E.
    assert (Hv0 : v * (1 / 1) + - mn * (1 / 1) == v - mn) by field.
    rewrite Hv0. split; lra.
  - assert (Hne : ~ mx - mn == 0) by (intro C; apply Qeq_bool_iff in C; congruence).
    assert (Hpos : 0 < mx - mn) by lra.
    assert (Hv0 : v * (1 / (mx - mn)) + - mn * (1 / (mx - mn)) == (v - mn) / (mx - mn))
      by (field; exact Hne).
    rewrite Hv0. split.
    + apply Qle_shift_div_l; [exact Hpos | lra].
    + apply Qle_shift_div_r; [exact Hpos | lra].
Qed.

Lemma length_min_max_scale (l : list Q) : length (min_max_scale l) = length l.
Proof. destruct l; simpl; [reflexivity | rewrite length_map; reflexivity]. Qed.

Lemma map_fst_combine {A B : Type} (l1 : list A) (l2 : list B) :
  length l1 = length l2 -> map fst (combine l1 l2) = l1.
Proof.
  revert l2; induction l1 as [|a l1 IH]; intros [|b l2]; simpl; intro H;
    try discriminate; [reflexivity|]. rewrite IH; [reflexivity | lia].
Qed.

Lemma weighted_preds_keys (df : frame) (w : Q) :
  map fst (weighted_preds df w) = map fst df.
Proof.
  unfold weighted_preds. rewrite map_map.
  rewrite (map_ext _ (fun r : string * Q * Q => fst (fst r))) by (intros [[h s] ns]; reflexivity).
  rewrite <- map_map. f_equal. unfold _normalize_scores. destruct df as [|r df]; [reflexivity|].
  apply map_fst_combine. rewrite length_min_max_scale. unfold scores. rewrite length_map. reflexivity.
Qed.

Lemma weighted_preds_in (df : frame) (w : Q) (h : string) (x : Q) :
  In (h, x) (weighted_preds df w) -> exists s ns, In (h, s, ns) (_normalize_scores df) /\ x = ns * w.
Proof.
  unfold weighted_preds. intro H. apply in_map_iff in H as [[[h' s] ns] [He Hin]].
  injection He as <- <-. eauto.
Qed.

Lemma normalize_scores_in (df : frame) (h : string) (s ns : Q) :
  In (h, s, ns) (_normalize_scores df) -> In (h, s) df /\ In ns (min_max_scale (scores df)).
Proof.
  unfold _normalize_scores. destruct df as [|r df]; [intros []|]. intro H. split.
  - exact (in_combine_l _ _ _ _ H).
  - exact (in_combine_r _ _ _ _ H).
Qed.

(** Sorting. *)

Lemma insert_desc_perm (r : string * Q) (df : frame) : Permutation (insert_desc r df) (r :: df).
Proof.
  induction df as [|r' df IH]; simpl; [reflexivity|].
  destruct (Qle_bool (snd r') (snd r)); [reflexivity|].
  etransitivity; [apply perm_skip; exact IH | apply perm_swap].
Qed.

Lemma sort_desc_perm (df : frame) : Permutation (sort_desc df) df.
Proof.
  induction df as [|r df IH]; simpl; [reflexivity|].
  etransitivity; [apply insert_desc_perm | apply perm_skip; exact IH].
Qed.

Lemma insert_desc_hdrel (r r' : string * Q) (df : frame) :
  HdRel (fun a b => snd b <= snd a) r' df -> snd r <= snd r' ->
  HdRel (fun a b => snd b <= snd a) r' (insert_desc r df).
Proof.
  destruct df as [|r'' df]; simpl; intros H Hr; [constructor; exact Hr|].
  destruct (Qle_bool (snd r'') (snd r)); constructor; [exact Hr | inversion H; assumption].
Qed.

Lemma insert_desc_sorted (r : string * Q) (df : frame) :
  Sorted (fun a b => snd b <= snd a) df -> Sorted (fun a b => snd b <= snd a) (insert_desc r df).
Proof.
  induction df as [|r' df IH]; simpl; intro H; [repeat constructor|].
  inversion H as [|? ? Hs Hhd]; subst.
  destruct (Qle_bool (snd r') (snd r)) eqn:E.
  - constructor; [exact H|]. constructor. apply Qle_bool_iff; exact E.
  - constructor; [apply IH; exact Hs|]. apply insert_desc_hdrel; [exact Hhd|].
    assert (C : ~ snd r' <= snd r) by (intro C; apply Qle_bool_iff in C; congruence).
    apply Qlt_le_weak, Qnot_le_lt, C.
Qed.

Lemma sort_desc_sorted (df : frame) : Sorted (fun a b => snd b <= snd a) (sort_desc df).
Proof. induction df as [|r df IH]; simpl; [constructor | apply insert_desc_sorted; exact IH]. Qed.

Lemma sorted_firstn {A : Type} (R : A -> A -> Prop) (n : nat) (l : list A) :
  Sorted R l -> Sorted R (firstn n l).
Proof.
  revert n; induction l as [|a l IH]; intros [|n] H; simpl; [constructor | constructor | constructor |].
  inversion H as [|? ? Hs Hhd]; subst. constructor; [apply IH; exact Hs|].
  destruct l as [|b l], n as [|n]; simpl; constructor. inversion Hhd; assumption.
Qed.

Lemma sorted_head (n : Z) (df : frame) :
  Sorted (fun a b => snd b <= snd a) df -> Sorted (fun a b => snd b <= snd a) (head n df).
Proof. unfold head. destruct (0 <=? n)%Z; apply sorted_firstn. Qed.

Lemma in_firstn {A : Type} (n : nat) (l : list A) (x : A) : In x (firstn n l) -> In x l.
Proof. intro H. rewrite <- (firstn_skipn n l). apply in_or_app. left. exact H. Qed.

Lemma in_head (n : Z) (df : frame) (r : string * Q) : In r (head n df) -> In r df.
Proof. unfold head. destruct (0 <=? n)%Z; apply in_firstn. Qed.

Lemma nodup_firstn {A : Type} (n : nat) (l : list A) : NoDup l -> NoDup (firstn n l).
Proof. intro H. rewrite <- (firstn_skipn n l) in H. exact (NoDup_app_remove_r _ _ H). Qed.

Lemma nodup_keys_head (n : Z) (df : frame) : NoDup (map fst df) -> NoDup (map fst (head n df)).
Proof. unfold head. destruct (0 <=? n)%Z; rewrite <- firstn_map; apply nodup_firstn. Qed.

Lemma sorted_map_in {A B : Type} (R : A -> A -> Prop) (R' : B -> B -> Prop) (f : A -> B) (l : list A) :
  (forall a b, In a l -> In b l -> R a b -> R' (f a) (f b)) -> Sorted R l -> Sorted R' (map f l).
Proof.
  induction l as [|a l IH]; simpl; intros Hf H; [constructor|].
  inversion H as [|? ? Hs Hhd]; subst. constructor.
  - apply IH; [intros; apply Hf; auto | exact Hs].
  - destruct l as [|b l]; simpl; constructor. inversion Hhd; subst. apply Hf; simpl; auto.
Qed.

Lemma nodup_map_in {A B C : Type} (f : A -> B) (g : A -> C) (l : list A) :
  (forall a b, In a l -> In b l -> g a = g b -> f a = f b) -> NoDup (map f l) -> NoDup (map g l).
Proof.
  induction l as [|a l IH]; simpl; intros Hfg H; [constructor|].
  inversion H as [|? ? Hn Hnd]; subst. constructor.
  - intro Hin. apply in_map_iff in Hin as [b [Hb Hin]]. apply Hn.
    rewrite (Hfg a b (or_introl eq_refl) (or_intror Hin) (eq_sym Hb)). apply in_map; exact Hin.
  - apply IH; [intros; apply Hfg; auto | exact Hnd].
Qed.

(** Parsing the recipe ids. *)

Lemma substring_all (s : string) : substring 0 (String.length s) s = s.
Proof. induction s as [|c s IH]; simpl; [reflexivity | rewrite IH; reflexivity]. Qed.

Lemma prefix_suffix (p s : string) :
  prefix p s = true -> s = p ++ substring (String.length p) (String.length s - String.length p) s.
Proof.
  revert s; induction p as [|a p IH]; intros s H.
  - simpl. rewrite Nat.sub_0_r, substring_all. reflexivity.
  - destruct s as [|b s]; simpl in H; [discriminate|].
    destruct (ascii_dec a b) as [<- | _]; [|discriminate].
    simpl. f_equal. apply IH. exact H.
Qed.

Lemma split_once_after_eq (sep s : string) :
  split_once_after sep s =
  if prefix sep s then Some (substring (String.length sep) (String.length s - String.length sep) s)
  else match s with
       | EmptyString => None
       | String _ s' => split_once_after sep s'
       end.
Proof. destruct s; reflexivity. Qed.

Lemma parse_prefixed (s : string) :
  prefix "recipe_" s = true ->
  parse_recipe_id s = Some (substring 7 (String.length s - 7) s).
Proof. intro H. unfold parse_recipe_id. rewrite split_once_after_eq, H. reflexivity. Qed.

Lemma map_option_all {A B : Type} (f : A -> option B) (g : A -> B) (l : list A) :
  (forall a, In a l -> f a = Some (g a)) -> map_option f l = Some (map g l).
Proof.
  induction l as [|a l IH]; simpl; intro H; [reflexivity|].
  rewrite (H a (or_introl eq_refl)), IH by auto. reflexivity.
Qed.

(** The recipe id of a ranked row. *)
Lemma get_matching_recipes_rows (predict : adapter) (c0 : Translator.criterion)
    (cs : list Translator.criterion) (top_k : Z) (flexible : bool) :
  let F := fun c : Translator.criterion =>
             let '(tail, relation, weight) := c in weighted_preds (predict relation tail) weight in
  let rows := head top_k (sort_desc (filter (fun r => prefix "recipe_" (fst r))
                                       (merge_preds flexible (F c0) (map F cs)))) in
  fst (get_matching_recipes predict (c0 :: cs) top_k flexible) =
  Some (map (fun r => substring 7 (String.length (fst r) - 7) (fst r)) rows) /\
  (forall r, In r rows ->
     In r (merge_preds flexible (F c0) (map F cs)) /\ prefix "recipe_" (fst r) = true).
Proof.
  intros F rows.
  assert (Hrows : forall r, In r rows ->
            In r (merge_preds flexible (F c0) (map F cs)) /\ prefix "recipe_" (fst r) = true).
  { intros r Hr. apply in_head in Hr. apply (Permutation_in _ (sort_desc_perm _)) in Hr.
    apply filter_In in Hr. exact Hr. }
  split; [|exact Hrows].
  change (map_option (fun r => parse_recipe_id (fst r)) rows =
          Some (map (fun r => substring 7 (String.length (fst r) - 7) (fst r)) rows)).
  apply map_option_all. intros r Hr. apply parse_prefixed, (Hrows r Hr).
Qed.

(** Where the merged rows come from. *)

Lemma merge_outer_keys (m o : frame) (k : string) (s : Q) :
  In (k, s) (merge_outer m o) -> In k (map fst m) \/ In k (map fst o).
Proof.
  unfold merge_outer. intro H. apply in_app_iff in H as [H | H].
  - apply in_flat_map in H as [[k0 s0] [Hin H]]. left.
    destruct (lookup_all k0 o) as [|x xs].
    + destruct H as [H | []]. injection H as <- _. apply in_map with (f := fst) in Hin. exact Hin.
    + apply in_map_iff in H as [s' [He _]]. injection He as <- _.
      apply in_map with (f := fst) in Hin. exact Hin.
  - apply in_map_iff in H as [[k0 s0] [He Hin]]. injection He as <- _.
    apply filter_In in Hin as [Hin _]. right. apply in_map with (f := fst) in Hin. exact Hin.
Qed.

Lemma merge_inner_keys (m o : frame) (k : string) (s : Q) :
  In (k, s) (merge_inner m o) -> In k (map fst m).
Proof.
  unfold merge_inner. intro H. apply in_flat_map in H as [[k0 s0] [Hin H]].
  apply in_map_iff in H as [s' [He _]]. injection He as <- _.
  apply in_map with (f := fst) in Hin. exact Hin.
Qed.

Lemma merge_preds_keys (flexible : bool) (rest : list frame) :
  forall (first : frame) k s, In (k, s) (merge_preds flexible first rest) ->
  In k (map fst first) \/ exists df, In df rest /\ In k (map fst df).
Proof.
  unfold merge_preds. induction rest as [|o rest IH]; simpl; intros first k s H; [left | ].
  - apply in_map with (f := fst) in H. exact H.
  - destruct (IH _ _ _ H) as [H1 | [df [Hdf Hk]]]; [| right; eauto].
    apply in_map_iff in H1 as [[k' s'] [Hk' H1]]. simpl in Hk'. subst k'.
    destruct flexible.
    + destruct (merge_outer_keys _ _ _ _ H1); [left; assumption | right; eauto].
    + left. exact (merge_inner_keys _ _ _ _ H1).
Qed.

End RankingMore.

(** ** Properties of the code beyond the claims *)

(** Extra X1 ([split_and_clean]).  Every token it returns is non-empty,
    has no leading or trailing whitespace, and contains no delimiter. *)
Theorem split_and_clean_tokens_clean (value : string) (delimiter : ascii) (t : string) :
  In t (Builder.split_and_clean value delimiter) ->
  t <> "" /\ Py.strip t = t /\ ~ In delimiter (list_ascii_of_string t).
Proof. exact (StrFacts.split_and_clean_tokens value delimiter t). Qed.

Lemma split_and_clean_tokens_clean_witness :
  In "b" (Builder.split_and_clean "a; b ;;c" ";") /\
  ("b" <> "" /\ Py.strip "b" = "b" /\ ~ In ";"%char (list_ascii_of_string "b")).
Proof.
  split; [vm_compute; right; left; reflexivity|].
  apply (split_and_clean_tokens_clean "a; b ;;c" ";" "b").
  vm_compute; right; left; reflexivity.
Defined.

(** Extra X2 ([create_graph_and_triples]).  The graph never holds the same
    node twice, and both end points of every edge are nodes of the graph. *)
Theorem create_graph_nodes_unique (recipes : list (Z * Builder.details)) :
  let '(G, _) := Builder.create_graph_and_triples recipes in
  NoDup (Builder.g_nodes G) /\
  (forall u v r, In (u, v, r) (Builder.g_edges G) ->
     In u (Builder.g_nodes G) /\ In v (Builder.g_nodes G)).
Proof.
  pose proof (BuilderShape.create_shape recipes) as H.
  destruct (Builder.create_graph_and_triples recipes) as [G T].
  destruct H as (H1 & H2 & _). split; assumption.
Qed.

(** Extra X3 ([create_graph_and_triples]).  The recipe nodes of the graph
    are exactly the ids of the input records (a record without any usable
    attribute still gets its node), and every triple goes from the recipe
    node of an input record to an attribute node. *)
Theorem create_graph_recipe_nodes (recipes : list (Z * Builder.details)) :
  let '(G, T) := Builder.create_graph_and_triples recipes in
  (forall z, In (Builder.RecipeNode z) (Builder.g_nodes G) <-> In z (map fst recipes)) /\
  (forall h r t, In (h, r, t) T ->
     (exists z, h = Builder.RecipeNode z /\ In z (map fst recipes)) /\
     (exists ty x, t = Builder.AttrNode ty x)).
Proof.
  pose proof (BuilderShape.create_shape recipes) as H.
  destruct (Builder.create_graph_and_triples recipes) as [G T].
  destruct H as (_ & _ & H3 & _ & H5). split; [exact H3|].
  intros h r t Hin. destruct (H5 _ _ _ Hin) as [Hh [ty [x [Ht _]]]].
  split; [exact Hh | exists ty, x; exact Ht].
Qed.

(** Extra X4 ([create_graph_and_triples]).  The value of every attribute
    node is non-empty and has no leading or trailing whitespace. *)
Theorem create_graph_attribute_values_clean (recipes : list (Z * Builder.details)) :
  let '(G, _) := Builder.create_graph_and_triples recipes in
  forall ty x, In (Builder.AttrNode ty x) (Builder.g_nodes G) -> x <> "" /\ Py.strip x = x.
Proof.
  pose proof (BuilderShape.create_shape recipes) as H.
  destruct (Builder.create_graph_and_triples recipes) as [G T].
  destruct H as (_ & _ & _ & H4 & _). exact H4.
Qed.

(** Extra X5 ([create_graph_and_triples]).  The triples of a record do not
    depend on the records processed before it: the triple list is the
    concatenation, in the order of the records, of the triples each record
    yields when it is processed alone. *)
Theorem create_graph_triples_per_record (recipes : list (Z * Builder.details)) :
  snd (Builder.create_graph_and_triples recipes) =
  flat_map (fun item => snd (Builder.process_recipe (Builder.empty_graph, []) item)) recipes.
Proof. unfold Builder.create_graph_and_triples. apply BuilderTriples.fold_process_snd. Qed.

(** Extra X7 ([get_matching_recipes]).  It never raises: the parse of
    every ranked label succeeds.  Every id [x] it returns comes from a
    label ["recipe_" ++ x] that the adapter returned for one of the
    criteria. *)
Theorem get_matching_recipes_ids_from_adapter (predict : Ranking.adapter)
    (criteria : list Translator.criterion) (top_k : Z) (flexible : bool) :
  exists ids, fst (Ranking.get_matching_recipes predict criteria top_k flexible) = Some ids /\
  forall x, In x ids -> exists tail relation weight,
    In (tail, relation, weight) criteria /\ In ("recipe_" ++ x) (map fst (predict relation tail)).
Proof.
  destruct criteria as [|c0 cs]; [exists []; split; [reflexivity | intros _ []]|].
  destruct (RankingMore.get_matching_recipes_rows predict c0 cs top_k flexible) as [Hres Hrows].
  eexists; split; [exact Hres|].
  intros x Hx. apply in_map_iff in Hx as [[k s] [<- Hr]].
  destruct (Hrows _ Hr) as [Hm Hp]. cbn [fst] in Hp |- *.
  replace ("recipe_" ++ substring 7 (String.length k - 7) k) with k
    by exact (RankingMore.prefix_suffix _ _ Hp).
  apply RankingMore.merge_preds_keys in Hm as [Hk | [df [Hdf Hk]]].
  - destruct c0 as [[tail relation] weight].
    exists tail, relation, weight. split; [left; reflexivity|].
    rewrite <- (RankingMore.weighted_preds_keys _ weight). exact Hk.
  - apply in_map_iff in Hdf as [[[tail relation] weight] [<- Hc]].
    exists tail, relation, weight. split; [right; exact Hc|].
    rewrite <- (RankingMore.weighted_preds_keys _ weight). exact Hk.
Qed.

(** Extra X8 ([get_matching_recipes]).  When the adapter returns each
    label at most once per criterion, the returned ids are distinct and
    ordered by non-increasing combined score (the sum over the criteria
    of the candidate's weighted normalised score, 0 where absent). *)
Theorem get_matching_recipes_ranked (predict : Ranking.adapter)
    (criteria : list Translator.criterion) (top_k : Z) (flexible : bool) :
  (forall tail relation weight, In (tail, relation, weight) criteria ->
     NoDup (map fst (predict relation tail))) ->
  exists ids, fst (Ranking.get_matching_recipes predict criteria top_k flexible) = Some ids /\
  NoDup ids /\
  Sorted (fun a b =>
    let frames := map (fun c => let '(tail, relation, weight) := c in
                                Ranking.weighted_preds (predict relation tail) weight) criteria in
    (Ranking.spec_combined_score ("recipe_" ++ b) frames <=
     Ranking.spec_combined_score ("recipe_" ++ a) frames)%Q) ids.
Proof.
  intro Hnd.
  destruct criteria as [|c0 cs]; [exists []; split; [reflexivity | split; constructor]|].
  destruct (RankingMore.get_matching_recipes_rows predict c0 cs top_k flexible) as [Hres Hrows].
  set (F := fun c : Translator.criterion =>
              let '(tail, relation, weight) := c in Ranking.weighted_preds (predict relation tail) weight)
    in Hres, Hrows |- *.
  set (merged := Ranking.merge_preds flexible (F c0) (map F cs)) in Hres, Hrows |- *.
  set (rows := Ranking.head top_k (Ranking.sort_desc (filter (fun r => prefix "recipe_" (fst r)) merged)))
    in Hres, Hrows |- *.
  assert (HF : forall c, In c (c0 :: cs) -> NoDup (MergeInvariants.keys (F c))).
  { intros [[tail relation] weight] Hc. unfold MergeInvariants.keys. simpl.
    rewrite RankingMore.weighted_preds_keys. exact (Hnd _ _ _ Hc). }
  assert (Hrest : forall df, In df (map F cs) -> NoDup (MergeInvariants.keys df)).
  { intros df Hdf. apply in_map_iff in Hdf as [c [<- Hc]]. apply HF. right; exact Hc. }
  assert (Hm : NoDup (map fst merged) /\
               forall k s, In (k, s) merged -> (s == Ranking.spec_combined_score k (F c0 :: map F cs))%Q).
  { destruct (MergeFacts.init_inv (F c0) (HF c0 (or_introl eq_refl))) as [Hu Hi].
    unfold merged. destruct flexible.
    - destruct (MergeFacts.merge_preds_inv true (map F cs) (F c0) [F c0] Hrest Hu) as (H1 & _ & H3).
      split; [exact H1 | exact H3].
    - destruct (MergeFacts.merge_preds_inv false (map F cs) (F c0) [F c0] Hrest Hi) as (H1 & _ & H3).
      split; [exact H1 | exact H3]. }
  destruct Hm as [Hmnd Hms].
  assert (Hlab : forall r, In r rows -> fst r = ("recipe_" ++ substring 7 (String.length (fst r) - 7) (fst r))).
  { intros r Hr. exact (RankingMore.prefix_suffix _ _ (proj2 (Hrows r Hr))). }
  eexists; split; [exact Hres|]. split.
  - apply (RankingMore.nodup_map_in fst).
    + intros a b Ha Hb Hab. rewrite (Hlab a Ha), (Hlab b Hb), Hab. reflexivity.
    + unfold rows. apply RankingMore.nodup_keys_head.
      apply (Permutation_NoDup (Permutation_map fst (Permutation_sym (RankingMore.sort_desc_perm _)))).
      exact (MergeFacts.nodup_keys_filter _ _ Hmnd).
  - apply (RankingMore.sorted_map_in (fun a b => (snd b <= snd a)%Q)).
    + intros a b Ha Hb Hab. cbv zeta. rewrite <- (Hlab a Ha), <- (Hlab b Hb).
      destruct a as [ka sa], b as [kb sb]. cbn [fst snd] in Hab |- *.
      change (map _ (c0 :: cs)) with (F c0 :: map F cs).
      pose proof (Hms ka sa (proj1 (Hrows _ Ha))) as Ea.
      pose proof (Hms kb sb (proj1 (Hrows _ Hb))) as Eb.
      lra.
    + unfold rows. apply RankingMore.sorted_head, RankingMore.sort_desc_sorted.
Qed.

Lemma get_matching_recipes_ranked_witness :
  (forall tail relation weight, In (tail, relation, weight) [("meal_type_dessert", "isForMealType", 1%Q)] ->
     NoDup (map fst (dessert_stub relation tail))) /\
  fst (Ranking.get_matching_recipes dessert_stub [("meal_type_dessert", "isForMealType", 1%Q)] 5 false) =
    Some ["10"; "7"].
Proof.
  assert (Hnd : forall tail relation weight,
            In (tail, relation, weight) [("meal_type_dessert", "isForMealType", 1%Q)] ->
            NoDup (map fst (dessert_stub relation tail))).
  { intros tail relation weight _. vm_compute.
    repeat constructor; simpl; intuition discriminate. }
  split; [exact Hnd|].
  destruct (get_matching_recipes_ranked dessert_stub [("meal_type_dessert", "isForMealType", 1%Q)] 5 false Hnd)
    as [ids [H _]].
  rewrite H. f_equal. vm_compute in H. congruence.
Defined.

(** Extra X9 ([get_matching_recipes], [df.head(top_k)]).  For
    [0 <= k1 <= k2], the ids returned for [top_k = k1] are the first [k1]
    ids returned for [top_k = k2]: asking for more results never reorders
    the earlier ones; and at most [k1] ids are returned. *)
Theorem get_matching_recipes_top_k_prefix (predict : Ranking.adapter)
    (criteria : list Translator.criterion) (flexible : bool) (k1 k2 : Z) :
  (0 <= k1)%Z -> (k1 <= k2)%Z ->
  exists ids1 ids2,
    fst (Ranking.get_matching_recipes predict criteria k1 flexible) = Some ids1 /\
    fst (Ranking.get_matching_recipes predict criteria k2 flexible) = Some ids2 /\
    ids1 = firstn (Z.to_nat k1) ids2 /\ (length ids1 <= Z.to_nat k1)%nat.
Proof.
  intros H1 H12.
  destruct criteria as [|c0 cs].
  - exists [], []. repeat split; [rewrite firstn_nil; reflexivity | simpl; lia].
  - destruct (RankingMore.get_matching_recipes_rows predict c0 cs k1 flexible) as [R1 _].
    destruct (RankingMore.get_matching_recipes_rows predict c0 cs k2 flexible) as [R2 _].
    do 2 eexists. split; [exact R1 | split; [exact R2|]].
    unfold Ranking.head.
    replace (0 <=? k1)%Z with true by (symmetry; apply Z.leb_le; exact H1).
    replace (0 <=? k2)%Z with true by (symmetry; apply Z.leb_le; lia).
    rewrite firstn_map, firstn_firstn, Nat.min_l by (apply Z2Nat.inj_le; lia).
    split; [reflexivity|]. rewrite length_map. apply firstn_le_length.
Qed.

Lemma get_matching_recipes_top_k_prefix_witness :
  (0 <= 1)%Z /\ (1 <= 5)%Z /\
  fst (Ranking.get_matching_recipes dessert_stub [("meal_type_dessert", "isForMealType", 1%Q)] 1 false) =
    Some ["10"].
Proof.
  split; [lia | split; [lia|]].
  destruct (get_matching_recipes_top_k_prefix dessert_stub [("meal_type_dessert", "isForMealType", 1%Q)]
              false 1 5 ltac:(lia) ltac:(lia)) as [ids1 [ids2 [E1 [E2 [E3 _]]]]].
  rewrite E1, E3. vm_compute in E2. injection E2 as <-. reflexivity.
Defined.

Module IntFacts.

Import DataLoading.

Lemma of_uint_acc_val (u : Decimal.uint) (p : positive) :
  Zpos (Pos.of_uint_acc u p) =
  (Zpos p * 10 ^ Z.of_nat (String.length (NilEmpty.string_of_uint u)) + Z.of_uint u)%Z.
Proof.
  revert p; induction u as [|u IH|u IH|u IH|u IH|u IH|u IH|u IH|u IH|u IH|u IH]; intro p;
    cbn [Pos.of_uint_acc NilEmpty.string_of_uint String.length];
    [unfold Z.of_uint; simpl; lia| ..];
    rewrite IH; unfold Z.of_uint; cbn [Pos.of_uint];
    try (change (Z.of_N (N.pos (Pos.of_uint_acc u ?q))) with (Zpos (Pos.of_uint_acc u q)); rewrite IH);
    rewrite ?Pos2Z.inj_add, Pos2Z.inj_mul, Nat2Z.inj_succ, Z.pow_succ_r by lia;
    fold (Z.of_uint u); lia.
Qed.

Lemma parse_digits_digit (c : ascii) (s : string) (acc : Z) (b : bool) :
  is_digit c = true -> parse_digits (String c s) acc b = parse_digits s (10 * acc + digit_value c) true.
Proof. intro H. simpl. rewrite H. reflexivity. Qed.

Lemma parse_digits_uint (u : Decimal.uint) (acc : Z) :
  parse_digits (NilEmpty.string_of_uint u) acc true =
  Some (acc * 10 ^ Z.of_nat (String.length (NilEmpty.string_of_uint u)) + Z.of_uint u)%Z.
Proof.
  revert acc; induction u as [|u IH|u IH|u IH|u IH|u IH|u IH|u IH|u IH|u IH|u IH]; intro acc;
    [unfold Z.of_uint; simpl; f_equal; lia| ..];
    cbn [NilEmpty.string_of_uint String.length];
    rewrite parse_digits_digit by reflexivity; rewrite IH; f_equal;
    match goal with |- context [digit_value ?c] =>
      let v := eval vm_compute in (digit_value c) in change (digit_value c) with v end;
    unfold Z.of_uint; cbn [Pos.of_uint];
    try (change (Z.of_N (N.pos (Pos.of_uint_acc u ?q))) with (Zpos (Pos.of_uint_acc u q));
         rewrite of_uint_acc_val);
    rewrite Nat2Z.inj_succ, Z.pow_succ_r by lia;
    fold (Z.of_uint u); lia.
Qed.

Lemma parse_digits_nonnil (u : Decimal.uint) (b : bool) :
  u <> Decimal.Nil -> parse_digits (NilEmpty.string_of_uint u) 0 b = Some (Z.of_uint u).
Proof.
  intro Hu. transitivity (parse_digits (NilEmpty.string_of_uint u) 0 true).
  - destruct u; [congruence| ..]; cbn [NilEmpty.string_of_uint];
      rewrite !parse_digits_digit by reflexivity; try reflexivity.
  - rewrite parse_digits_uint. f_equal; lia.
Qed.

Lemma uint_digits (u : Decimal.uint) (c : ascii) :
  In c (list_ascii_of_string (NilEmpty.string_of_uint u)) -> is_digit c = true.
Proof.
  induction u; simpl; [tauto| ..]; intros [<- | H]; auto.
Qed.

Lemma digit_not_space (c : ascii) : is_digit c = true -> Py.is_space c = false.
Proof.
  unfold is_digit, Py.is_space. intro H.
  apply andb_true_iff in H as [H1 H2]. apply Nat.leb_le in H1, H2.
  apply orb_false_iff; split; apply andb_false_iff; right; apply Nat.leb_gt; lia.
Qed.

Lemma rev_str_chars_in (s acc : string) (x : ascii) :
  In x (list_ascii_of_string s) \/ In x (list_ascii_of_string acc) ->
  In x (list_ascii_of_string (Py.rev_str s acc)).
Proof.
  revert acc; induction s as [|c s IH]; simpl; intros acc H; [tauto|].
  apply IH. simpl. tauto.
Qed.

Lemma lstrip_chars_in (s : string) (x : ascii) :
  In x (list_ascii_of_string s) -> Py.is_space x = false ->
  In x (list_ascii_of_string (Py.lstrip s)).
Proof.
  induction s as [|c s IH]; simpl; intros H Hx; [tauto|].
  destruct (Py.is_space c) eqn:Hc; [|exact H].
  destruct H as [<- | H]; [congruence | exact (IH H Hx)].
Qed.

Lemma strip_chars_in (s : string) (x : ascii) :
  In x (list_ascii_of_string s) -> Py.is_space x = false ->
  In x (list_ascii_of_string (Py.strip s)).
Proof.
  intros H Hx. unfold Py.strip, Py.rstrip.
  apply rev_str_chars_in; left. apply lstrip_chars_in; [|exact Hx].
  apply rev_str_chars_in; left. apply lstrip_chars_in; assumption.
Qed.

Lemma strip_no_space (s : string) :
  (forall c, In c (list_ascii_of_string s) -> Py.is_space c = false) -> Py.strip s = s.
Proof.
  intro H. apply StrFacts.strip_id.
  - destruct s as [|c s]; simpl; [reflexivity|]. rewrite (H c); simpl; auto.
  - destruct (Py.rev_str s "") as [|c r] eqn:E; simpl; [reflexivity|].
    rewrite (H c); [reflexivity|].
    destruct (StrFacts.rev_str_chars s "" c) as [Hc | []]; [rewrite E; simpl; auto | exact Hc].
Qed.

Lemma py_int_uint (u : Decimal.uint) :
  u <> Decimal.Nil -> py_int (NilEmpty.string_of_uint u) = Some (Z.of_uint u).
Proof.
  intro Hu. unfold py_int.
  rewrite strip_no_space by (intros c Hc; apply digit_not_space, (uint_digits u c Hc)).
  destruct (NilEmpty.string_of_uint u) as [|c s] eqn:E.
  - destruct u; simpl in E; congruence.
  - assert (Hd : is_digit c = true) by (apply (uint_digits u); rewrite E; simpl; auto).
    destruct (Ascii.eqb c "-") eqn:Em; [apply Ascii.eqb_eq in Em; subst; discriminate|].
    destruct (Ascii.eqb c "+") eqn:Ep; [apply Ascii.eqb_eq in Ep; subst; discriminate|].
    rewrite <- E. apply parse_digits_nonnil, Hu.
Qed.

Lemma py_int_neg_uint (u : Decimal.uint) :
  u <> Decimal.Nil -> py_int (String "-" (NilEmpty.string_of_uint u)) = Some (- Z.of_uint u)%Z.
Proof.
  intro Hu. unfold py_int.
  rewrite strip_no_space.
  - cbv iota. rewrite Ascii.eqb_refl, parse_digits_nonnil by exact Hu. reflexivity.
  - intros c [<- | Hc]; [reflexivity|]. apply digit_not_space, (uint_digits u c Hc).
Qed.

Lemma py_int_str (z : Z) : py_int (NilEmpty.string_of_int (Z.to_int z)) = Some z.
Proof.
  rewrite <- (DecimalZ.of_to z) at 2.
  destruct z as [|p|p].
  - reflexivity.
  - apply py_int_uint, DecimalPos.Unsigned.to_uint_nonnil.
  - apply py_int_neg_uint, DecimalPos.Unsigned.to_uint_nonnil.
Qed.

Lemma parse_digits_bad (s : string) (acc : Z) (b : bool) (c : ascii) :
  In c (list_ascii_of_string s) -> is_digit c = false -> c <> "_"%char ->
  parse_digits s acc b = None.
Proof.
  revert acc b; induction s as [|c0 s IH]; simpl; intros acc b H Hd Hu; [tauto|].
  destruct H as [<- | H].
  - rewrite Hd. apply Ascii.eqb_neq in Hu. rewrite Hu. reflexivity.
  - destruct (is_digit c0); [exact (IH _ _ H Hd Hu)|].
    destruct (Ascii.eqb c0 "_" && b); [exact (IH _ _ H Hd Hu) | reflexivity].
Qed.

Lemma py_int_bad (s : string) (c : ascii) :
  In c (list_ascii_of_string s) -> is_digit c = false -> Py.is_space c = false ->
  c <> "_"%char -> c <> "+"%char -> c <> "-"%char -> py_int s = None.
Proof.
  intros H Hd Hs Hu Hp Hm. unfold py_int.
  pose proof (strip_chars_in s c H Hs) as H'.
  destruct (Py.strip s) as [|c0 r]; [reflexivity|].
  destruct (Ascii.eqb c0 "-") eqn:Em.
  - apply Ascii.eqb_eq in Em; subst c0. destruct H' as [<- | H']; [congruence|].
    rewrite (parse_digits_bad r 0 false c H' Hd Hu). reflexivity.
  - destruct (Ascii.eqb c0 "+") eqn:Ep.
    + apply Ascii.eqb_eq in Ep; subst c0. destruct H' as [<- | H']; [congruence|].
      exact (parse_digits_bad r 0 false c H' Hd Hu).
    + exact (parse_digits_bad (String c0 r) 0 false c H' Hd Hu).
Qed.

End IntFacts.

Module DataFacts.

Import Builder DataLoading.

Lemma cell_eqb_eq (a b : cell) : cell_eqb a b = true <-> a = b.
Proof.
  destruct a, b; simpl; try (split; congruence).
  rewrite String.eqb_eq. split; congruence.
Qed.

Lemma existsb_cell (c : cell) (l : list cell) : existsb (cell_eqb c) l = true <-> In c l.
Proof.
  rewrite existsb_exists. split.
  - intros [x [Hx He]]. apply cell_eqb_eq in He. subst. exact Hx.
  - intro H. exists c. split; [exact H | apply cell_eqb_eq; reflexivity].
Qed.

Lemma unique_from_in (seen cs : list cell) (c : cell) :
  In c (unique_from seen cs) <-> In c cs /\ ~ In c seen.
Proof.
  revert seen; induction cs as [|c0 cs IH]; intro seen; simpl; [tauto|].
  destruct (existsb (cell_eqb c0) seen) eqn:E.
  - apply existsb_cell in E. rewrite IH. split; [tauto|].
    intros [[<- | H] Hn]; [contradiction | tauto].
  - assert (Hn0 : ~ In c0 seen) by (intro H; apply existsb_cell in H; congruence).
    simpl. rewrite IH. simpl. split.
    + intros [<- | [H1 H2]]; tauto.
    + intros [[<- | H] Hn]; [left; reflexivity|].
      destruct (cell_eqb c0 c) eqn:Ec.
      * apply cell_eqb_eq in Ec. left; exact Ec.
      * right. split; [exact H|]. intros [He | He]; [|contradiction].
        subst. rewrite (proj2 (cell_eqb_eq c c) eq_refl) in Ec. discriminate.
Qed.

Lemma unique_in (cs : list cell) (c : cell) : In c (unique cs) <-> In c cs.
Proof. unfold unique. rewrite unique_from_in. simpl. tauto. Qed.

Lemma dropna_in (cs : list cell) (c : cell) :
  In c (dropna cs) <-> In c cs /\ exists s, c = CStr s.
Proof.
  unfold dropna. rewrite filter_In.
  destruct c; split; intros [H1 H2]; try split; eauto; try discriminate;
    destruct H2; discriminate.
Qed.

Lemma set_add_in (s : list string) (x y : string) : In x (set_add s y) <-> In x s \/ x = y.
Proof.
  unfold set_add. destruct (existsb (String.eqb y) s) eqn:E.
  - apply existsb_exists in E as [z [Hz Hyz]]. apply String.eqb_eq in Hyz. subst.
    split; [tauto|]. intros [H | <-]; assumption.
  - rewrite in_app_iff. simpl. split.
    + intros [H | [<- | []]]; auto.
    + intros [H | <-]; auto.
Qed.

Lemma set_add_nodup (s : list string) (y : string) : NoDup s -> NoDup (set_add s y).
Proof.
  unfold set_add. intro H. destruct (existsb (String.eqb y) s) eqn:E; [exact H|].
  apply (Permutation_NoDup (Permutation_cons_append s y)). constructor; [|exact H].
  intro Hy. assert (existsb (String.eqb y) s = true) by
    (apply existsb_exists; exists y; split; [exact Hy | apply String.eqb_refl]).
  congruence.
Qed.

(** The loop over the parts of one ingredient string. *)
Definition add_parts (unique_ings : list string) (parts : list string) : list string :=
  fold_left
    (fun unique_ings part =>
       let cleaned := part in
       if negb (cleaned =? "") && negb (cleaned =? "unknown") && negb (cleaned =? "nan")
       then set_add unique_ings cleaned else unique_ings)
    parts unique_ings.

Definition part_ok (x : string) : Prop := x <> "" /\ x <> "unknown" /\ x <> "nan".

Lemma part_ok_b (x : string) :
  negb (x =? "") && negb (x =? "unknown") && negb (x =? "nan") = true <-> part_ok x.
Proof.
  unfold part_ok. rewrite !andb_true_iff, !negb_true_iff, !String.eqb_neq. tauto.
Qed.

Lemma add_parts_in (acc parts : list string) (x : string) :
  In x (add_parts acc parts) <-> In x acc \/ (part_ok x /\ In x parts).
Proof.
  unfold add_parts. revert acc; induction parts as [|p parts IH]; intro acc; simpl; [tauto|].
  rewrite IH. destruct (negb (p =? "") && negb (p =? "unknown") && negb (p =? "nan")) eqn:E.
  - rewrite set_add_in. apply part_ok_b in E. split.
    + intros [[H | <-] | H]; tauto.
    + intros [H | [Hok [<- | H]]]; tauto.
  - split; [tauto|]. intros [H | [Hok [<- | H]]]; try tauto.
    apply part_ok_b in Hok. congruence.
Qed.

Lemma add_parts_nodup (acc parts : list string) : NoDup acc -> NoDup (add_parts acc parts).
Proof.
  unfold add_parts. revert acc; induction parts as [|p parts IH]; intros acc H; simpl; [exact H|].
  apply IH. destruct (_ && _); [apply set_add_nodup|]; exact H.
Qed.

Lemma fold_add_parts_in (L : list cell) (acc : list string) (x : string) :
  In x (fold_left (fun u c => add_parts u (Py.split ";" (py_str c))) L acc) <->
  In x acc \/ (part_ok x /\ exists c, In c L /\ In x (Py.split ";" (py_str c))).
Proof.
  revert acc; induction L as [|c L IH]; intro acc; simpl.
  - split; [tauto|]. intros [H | [_ [c [[] _]]]]; exact H.
  - rewrite IH, add_parts_in. split.
    + intros [[H | [Hok H]] | [Hok [c' [Hc' H]]]]; [tauto | |].
      * right. split; [exact Hok|]. exists c. auto.
      * right. split; [exact Hok|]. exists c'. auto.
    + intros [H | [Hok [c' [[<- | Hc'] H]]]]; [tauto | tauto |].
      right. split; [exact Hok|]. exists c'. auto.
Qed.

Lemma fold_add_parts_nodup (L : list cell) (acc : list string) :
  NoDup acc -> NoDup (fold_left (fun u c => add_parts u (Py.split ";" (py_str c))) L acc).
Proof.
  revert acc; induction L as [|c L IH]; intros acc H; simpl; [exact H|].
  apply IH, add_parts_nodup, H.
Qed.

Lemma insert_sorted_perm (x : string) (l : list string) : Permutation (insert_sorted x l) (x :: l).
Proof.
  induction l as [|y l IH]; simpl; [reflexivity|].
  destruct (String.leb x y); [reflexivity|].
  rewrite IH. apply perm_swap.
Qed.

Lemma sorted_strings_perm (l : list string) : Permutation (sorted_strings l) l.
Proof.
  induction l as [|x l IH]; simpl; [reflexivity|].
  rewrite insert_sorted_perm. apply perm_skip, IH.
Qed.

Lemma leb_lt (x y : string) : String.leb x y = true -> x <> y -> String.ltb x y = true.
Proof.
  unfold String.leb, String.ltb. intros H Hne.
  destruct (String.compare x y) eqn:E; try reflexivity; try discriminate.
  apply String.compare_eq_iff in E. contradiction.
Qed.

Lemma not_leb_lt (x y : string) : String.leb x y = false -> String.ltb y x = true.
Proof.
  unfold String.leb, String.ltb. rewrite String.compare_antisym.
  destruct (String.compare y x); simpl; congruence.
Qed.

Lemma insert_sorted_sorted (x : string) (l : list string) :
  Sorted (fun a b => String.ltb a b = true) l -> ~ In x l ->
  Sorted (fun a b => String.ltb a b = true) (insert_sorted x l).
Proof.
  induction l as [|y l IH]; simpl; intros Hs Hn; [repeat constructor|].
  destruct (String.leb x y) eqn:E.
  - constructor; [exact Hs|]. constructor. apply leb_lt; [exact E|]. intro; apply Hn; left; auto.
  - apply Sorted_inv in Hs as [Hs Hh]. constructor; [apply IH; tauto|].
    destruct l as [|z l]; simpl.
    + constructor. apply not_leb_lt, E.
    + destruct (String.leb x z); constructor; [apply not_leb_lt, E|].
      inversion Hh; assumption.
Qed.

Lemma sorted_strings_sorted (l : list string) :
  NoDup l -> Sorted (fun a b => String.ltb a b = true) (sorted_strings l).
Proof.
  induction l as [|x l IH]; simpl; intro H; [constructor|].
  inversion H as [|? ? Hn Hl]; subst. apply insert_sorted_sorted; [apply IH, Hl|].
  intro Hx. apply Hn. exact (Permutation_in _ (sorted_strings_perm l) Hx).
Qed.

Lemma get_unique_ingredients_fold (df : dataframe) :
  get_unique_ingredients df =
  sorted_strings
    (if has_column df "BestUsdaIngredientName" then
       fold_left (fun u c => add_parts u (Py.split ";" (py_str c)))
         (unique (dropna (map (fun row => get (snd row) "BestUsdaIngredientName") (df_rows df)))) []
     else []).
Proof. reflexivity. Qed.

Lemma has_column_in (df : dataframe) (col : string) : has_column df col = true <-> In col (df_columns df).
Proof.
  unfold has_column. rewrite existsb_exists. split.
  - intros [y [Hy He]]. apply String.eqb_eq in He. subst. exact Hy.
  - intro H. exists col. split; [exact H | apply String.eqb_refl].
Qed.

End DataFacts.

Module LoadFacts.

Import Builder DataLoading.

Lemma dict_assign_lookup (d : list (Z * details)) (k z : Z) (v : details) :
  dict_lookup (dict_assign d k v) z = if Z.eqb k z then Some v else dict_lookup d z.
Proof.
  induction d as [|[k' v'] d IH]; simpl; [reflexivity|].
  destruct (Z.eqb_spec k' k) as [-> | Hne]; simpl.
  - destruct (Z.eqb k z); reflexivity.
  - rewrite IH. destruct (Z.eqb_spec k' z) as [-> | ?]; [|reflexivity].
    destruct (Z.eqb_spec k z); [congruence | reflexivity].
Qed.

Lemma dict_assign_keys (d : list (Z * details)) (k x : Z) (v : details) :
  In x (map fst (dict_assign d k v)) <-> In x (map fst d) \/ x = k.
Proof.
  induction d as [|[k' v'] d IH]; simpl; [intuition congruence|].
  destruct (Z.eqb_spec k' k) as [-> | Hne]; simpl; [intuition congruence|].
  rewrite IH. tauto.
Qed.

Lemma dict_assign_nodup (d : list (Z * details)) (k : Z) (v : details) :
  NoDup (map fst d) -> NoDup (map fst (dict_assign d k v)).
Proof.
  induction d as [|[k' v'] d IH]; simpl; intro H; [repeat constructor; simpl; tauto|].
  inversion H as [|? ? Hn Hd]; subst.
  destruct (Z.eqb_spec k' k) as [-> | Hne]; simpl; [constructor; assumption|].
  constructor; [|apply IH, Hd]. rewrite dict_assign_keys. intros [H1 | H1]; [contradiction | congruence].
Qed.

Lemma dict_lookup_some (d : list (Z * details)) (z : Z) :
  In z (map fst d) <-> exists v, dict_lookup d z = Some v.
Proof.
  induction d as [|[k v] d IH]; simpl.
  - split; [tauto | intros [v H]; discriminate].
  - destruct (Z.eqb_spec k z) as [-> | Hne].
    + split; [eauto | auto].
    + rewrite <- IH. split; [intros [H | H]; [congruence | exact H] | auto].
Qed.

Lemma find_app {A : Type} (f : A -> bool) (l1 l2 : list A) :
  find f (l1 ++ l2) = match find f l1 with Some x => Some x | None => find f l2 end.
Proof.
  induction l1 as [|a l1 IH]; simpl; [reflexivity|]. destruct (f a); [reflexivity | exact IH].
Qed.

Definition load_step (recipes : list (Z * details)) (row : Z * details) : list (Z * details) :=
  let '(recipe_id, cells) := row in dict_assign recipes recipe_id (recipe_data cells).

Lemma load_fold (P acc : list (Z * details)) :
  NoDup (map fst acc) ->
  NoDup (map fst (fold_left load_step P acc)) /\
  forall z, dict_lookup (fold_left load_step P acc) z =
            match find (fun row => Z.eqb (fst row) z) (rev P) with
            | Some row => Some (recipe_data (snd row))
            | None => dict_lookup acc z
            end.
Proof.
  revert acc; induction P as [|[k cells] P IH]; intros acc Hacc; simpl; [split; auto|].
  destruct (IH (load_step acc (k, cells))) as [H1 H2]; [apply dict_assign_nodup, Hacc|].
  split; [exact H1|]. intro z. rewrite H2, find_app. simpl.
  destruct (find _ (rev P)); [reflexivity|].
  unfold load_step. rewrite dict_assign_lookup. destruct (Z.eqb k z); reflexivity.
Qed.

Lemma load_inr (df : dataframe) (recipes : list (Z * details)) :
  load_recipes_from_dataframe df = inr recipes ->
  recipes = fold_left load_step (df_rows df) [].
Proof.
  unfold load_recipes_from_dataframe. destruct (filter _ _); [|discriminate].
  intro H. injection H as <-. reflexivity.
Qed.

End LoadFacts.

Module RouterFacts.

Import Translator.

Lemma get_matching_recipes_calls (predict : Ranking.adapter) (criteria : list criterion)
    (top_k : Z) (flexible : bool) :
  snd (Ranking.get_matching_recipes predict criteria top_k flexible) =
  map (fun c => let '(tail, relation, _) := c in (relation, tail)) criteria.
Proof. destruct criteria; reflexivity. Qed.

Lemma criteria_length (u : user_input) :
  length (map_user_input_to_criteria u) =
  ((match opt_truthy (cooking_method u) with Some _ => 1 | None => 0 end) +
   (match opt_truthy (servings_bin u) with Some _ => 1 | None => 0 end) +
   length (diet_types u) + length (meal_type u) +
   (match opt_truthy (cook_time u) with Some _ => 1 | None => 0 end) +
   length (health_types u) +
   (match opt_truthy (cuisine_region u) with Some _ => 1 | None => 0 end) +
   length (ingredients u))%nat.
Proof.
  unfold map_user_input_to_criteria. cbv zeta. rewrite !length_app, !length_map.
  destruct (opt_truthy (cooking_method u)), (opt_truthy (servings_bin u)),
    (opt_truthy (cook_time u)), (opt_truthy (cuisine_region u)); simpl; lia.
Qed.

End RouterFacts.


(** ** Properties of the routers and of the data loading *)

(** Extra X10 ([recommend_recipes]): a request makes one adapter call per
    set scalar field (cooking method, servings bin, cook time, cuisine
    region: a non-empty string) and one per element of each list field;
    when that count is zero, the endpoint returns the empty list without
    calling the adapter, whatever [top_k] and [flexible]. *)
Theorem recommend_recipes_call_count (predict : Ranking.adapter)
    (request : Schemas.RecommendationRequest) :
  let count :=
    ((match Translator.opt_truthy (Schemas.cooking_method request) with Some _ => 1 | None => 0 end) +
     (match Translator.opt_truthy (Schemas.servings_bin request) with Some _ => 1 | None => 0 end) +
     length (Schemas.diet_types request) + length (Schemas.meal_type request) +
     (match Translator.opt_truthy (Schemas.cook_time request) with Some _ => 1 | None => 0 end) +
     length (Schemas.health_types request) +
     (match Translator.opt_truthy (Schemas.cuisine_region request) with Some _ => 1 | None => 0 end) +
     length (Schemas.ingredients request))%nat in
  length (snd (Routers.recommend_recipes predict request)) = count /\
  (count = 0%nat -> Routers.recommend_recipes predict request = (Some [], [])).
Proof.
  intro count. unfold Routers.recommend_recipes.
  rewrite RouterFacts.get_matching_recipes_calls, length_map, RouterFacts.criteria_length.
  split; [reflexivity|]. intro H0.
  match goal with |- Ranking.get_matching_recipes _ ?c _ _ = _ =>
    assert (Hc : length c = 0%nat) by (rewrite RouterFacts.criteria_length; exact H0);
    destruct c; [reflexivity | discriminate Hc] end.
Qed.

(** Extra X11 ([get_unique_ingredients]): the returned list is strictly
    increasing in code-point order, so it holds no string twice. *)
Theorem get_unique_ingredients_sorted_unique (df : DataLoading.dataframe) :
  Sorted (fun a b => String.ltb a b = true) (DataLoading.get_unique_ingredients df) /\
  NoDup (DataLoading.get_unique_ingredients df).
Proof.
  rewrite DataFacts.get_unique_ingredients_fold.
  assert (Hn : NoDup (if DataLoading.has_column df "BestUsdaIngredientName" then
       fold_left (fun u c => DataFacts.add_parts u (Py.split ";" (Builder.py_str c)))
         (DataLoading.unique (DataLoading.dropna
            (map (fun row => Builder.get (snd row) "BestUsdaIngredientName") (DataLoading.df_rows df)))) []
     else [])).
  { destruct (DataLoading.has_column _ _); [apply DataFacts.fold_add_parts_nodup|]; constructor. }
  split.
  - apply DataFacts.sorted_strings_sorted, Hn.
  - apply (Permutation_NoDup (Permutation_sym (DataFacts.sorted_strings_perm _))), Hn.
Qed.

(** Extra X12 ([get_unique_ingredients]): a string is returned exactly when
    the DataFrame has the column [BestUsdaIngredientName], the string is
    not [""], ["unknown"] or ["nan"], and it is one of the [";"]-separated
    pieces, unstripped, of a non-missing cell of that column. *)
Theorem get_unique_ingredients_members (df : DataLoading.dataframe) (x : string) :
  In x (DataLoading.get_unique_ingredients df) <->
  In "BestUsdaIngredientName" (DataLoading.df_columns df) /\
  x <> "" /\ x <> "unknown" /\ x <> "nan" /\
  exists row s, In row (DataLoading.df_rows df) /\
                Builder.get (snd row) "BestUsdaIngredientName" = Builder.CStr s /\
                In x (Py.split ";" s).
Proof.
  rewrite DataFacts.get_unique_ingredients_fold. split.
  - intro H. apply (Permutation_in _ (DataFacts.sorted_strings_perm _)) in H.
    destruct (DataLoading.has_column df "BestUsdaIngredientName") eqn:Hc; [|destruct H].
    apply DataFacts.fold_add_parts_in in H as [[] | [(H1 & H2 & H3) [c [Hcin Hx]]]].
    apply DataFacts.unique_in, DataFacts.dropna_in in Hcin as [Hcin [s ->]].
    apply in_map_iff in Hcin as [row [Hrow Hin]].
    split; [apply DataFacts.has_column_in, Hc|].
    repeat split; try assumption. exists row, s. auto.
  - intros (Hcol & H1 & H2 & H3 & row & s & Hrow & Hget & Hx).
    apply (Permutation_in _ (Permutation_sym (DataFacts.sorted_strings_perm _))).
    apply DataFacts.has_column_in in Hcol. rewrite Hcol.
    apply DataFacts.fold_add_parts_in. right. split; [repeat split; assumption|].
    exists (Builder.CStr s). split; [|exact Hx].
    apply DataFacts.unique_in, DataFacts.dropna_in. split; [|exists s; reflexivity].
    apply in_map_iff. exists row. auto.
Qed.

(** Extra X13 ([fetch_recipe_info]): looking a recipe up by the decimal
    string [str(z)] of an integer [z] returns the first row whose
    [RecipeId] is [z], and [None] when there is none. *)
Theorem fetch_recipe_info_by_str (df : DataLoading.dataframe) (z : Z) :
  DataLoading.fetch_recipe_info df (NilEmpty.string_of_int (Z.to_int z)) =
  find (fun row => Z.eqb (fst row) z) (DataLoading.df_rows df).
Proof. unfold DataLoading.fetch_recipe_info. rewrite IntFacts.py_int_str. reflexivity. Qed.

(** Extra X14 ([fetch_recipe_info]): an id made of ASCII characters that
    contains a character other than a digit, an underscore, a sign or
    whitespace (a letter, say, as in a graph label ["recipe_42"]) is not
    found: [int()] raises and the function returns [None]. *)
Theorem fetch_recipe_info_non_numeric (df : DataLoading.dataframe) (recipe_id : string) (c : ascii) :
  (forall c', In c' (list_ascii_of_string recipe_id) -> (nat_of_ascii c' < 128)%nat) ->
  In c (list_ascii_of_string recipe_id) ->
  DataLoading.is_digit c = false -> Py.is_space c = false ->
  c <> "_"%char -> c <> "+"%char -> c <> "-"%char ->
  DataLoading.fetch_recipe_info df recipe_id = None.
Proof.
  intros _ H Hd Hs Hu Hp Hm. unfold DataLoading.fetch_recipe_info.
  rewrite (IntFacts.py_int_bad recipe_id c H Hd Hs Hu Hp Hm). reflexivity.
Qed.

Lemma fetch_recipe_info_non_numeric_witness :
  DataLoading.fetch_recipe_info (DataLoading.mkDataFrame ["RecipeId"] [(42%Z, [])]) "recipe_42" = None.
Proof.
  apply (fetch_recipe_info_non_numeric _ "recipe_42" "r"%char);
    [intros c' Hc'; repeat (destruct Hc' as [<- | Hc']; [vm_compute; lia|]); destruct Hc'
    | simpl; auto | reflexivity | reflexivity | discriminate | discriminate | discriminate].
Defined.

(** Extra X15 ([load_recipes_from_dataframe]): the function fails exactly
    when one of the nine required columns is absent, and the failure lists
    exactly the required columns that are absent. *)
Theorem load_recipes_missing_columns (df : DataLoading.dataframe) :
  match DataLoading.load_recipes_from_dataframe df with
  | inl missing =>
      missing <> [] /\
      forall col, In col missing <-> In col DataLoading.columns_to_keep /\ ~ In col (DataLoading.df_columns df)
  | inr _ => forall col, In col DataLoading.columns_to_keep -> In col (DataLoading.df_columns df)
  end.
Proof.
  unfold DataLoading.load_recipes_from_dataframe.
  destruct (filter _ _) as [|m ms] eqn:E.
  - intros col Hc. apply DataFacts.has_column_in.
    destruct (DataLoading.has_column df col) eqn:Hh; [reflexivity|].
    assert (Hf : In col (filter (fun col => negb (DataLoading.has_column df col)) DataLoading.columns_to_keep))
      by (apply filter_In; rewrite Hh; auto).
    rewrite E in Hf. destruct Hf.
  - split; [discriminate|]. intro col. rewrite <- E, filter_In, negb_true_iff.
    split; intros [H1 H2]; split; try exact H1.
    + intro Hin. apply DataFacts.has_column_in in Hin. congruence.
    + destruct (DataLoading.has_column df col) eqn:Hh; [|reflexivity].
      apply DataFacts.has_column_in in Hh. contradiction.
Qed.

(** Extra X16 ([load_recipes_from_dataframe]): the dictionary has one entry
    per [RecipeId], and the record of an id is built from the last row with
    that id (a later row overwrites an earlier one); an id no row has is
    absent. *)
Theorem load_recipes_last_row_wins (df : DataLoading.dataframe) (recipes : list (Z * Builder.details)) :
  DataLoading.load_recipes_from_dataframe df = inr recipes ->
  NoDup (map fst recipes) /\
  forall z, DataLoading.dict_lookup recipes z =
            option_map (fun row => DataLoading.recipe_data (snd row))
                       (find (fun row => Z.eqb (fst row) z) (rev (DataLoading.df_rows df))).
Proof.
  intro H. apply LoadFacts.load_inr in H. subst recipes.
  destruct (LoadFacts.load_fold (DataLoading.df_rows df) [] (NoDup_nil _)) as [H1 H2].
  split; [exact H1|]. intro z. rewrite H2. destruct (find _ _); reflexivity.
Qed.

Lemma load_recipes_last_row_wins_witness :
  DataLoading.load_recipes_from_dataframe
    (DataLoading.mkDataFrame DataLoading.columns_to_keep
       [(1%Z, [("meal_type", Builder.CStr "lunch")]); (1%Z, [("meal_type", Builder.CStr "dinner")])]) =
  inr [(1%Z, DataLoading.recipe_data [("meal_type", Builder.CStr "dinner")])] /\
  DataLoading.dict_lookup [(1%Z, DataLoading.recipe_data [("meal_type", Builder.CStr "dinner")])] 1%Z =
  Some (DataLoading.recipe_data [("meal_type", Builder.CStr "dinner")]).
Proof.
  assert (H : DataLoading.load_recipes_from_dataframe
    (DataLoading.mkDataFrame DataLoading.columns_to_keep
       [(1%Z, [("meal_type", Builder.CStr "lunch")]); (1%Z, [("meal_type", Builder.CStr "dinner")])]) =
    inr [(1%Z, DataLoading.recipe_data [("meal_type", Builder.CStr "dinner")])]) by reflexivity.
  split; [exact H|].
  exact (proj2 (load_recipes_last_row_wins _ _ H) 1%Z).
Defined.

(** Extra X17 ([load_recipes_from_dataframe] then
    [create_graph_and_triples]): building the graph from the loaded
    dictionary gives one recipe node per distinct [RecipeId] of the
    DataFrame and no other recipe node. *)
Theorem load_then_build_recipe_nodes (df : DataLoading.dataframe) (recipes : list (Z * Builder.details)) :
  DataLoading.load_recipes_from_dataframe df = inr recipes ->
  let '(G, _) := Builder.create_graph_and_triples recipes in
  NoDup (Builder.g_nodes G) /\
  forall z, In (Builder.RecipeNode z) (Builder.g_nodes G) <->
            exists cells, In (z, cells) (DataLoading.df_rows df).
Proof.
  intro H. pose proof (BuilderShape.create_shape recipes) as Hs.
  apply LoadFacts.load_inr in H. subst recipes.
  destruct (LoadFacts.load_fold (DataLoading.df_rows df) [] (NoDup_nil _)) as [_ Hl].
  destruct (Builder.create_graph_and_triples _) as [G T].
  destruct Hs as (H1 & _ & H3 & _). split; [exact H1|]. intro z.
  rewrite H3, LoadFacts.dict_lookup_some, Hl. simpl.
  destruct (find (fun row => Z.eqb (fst row) z) (rev (DataLoading.df_rows df))) as [[k c]|] eqn:E.
  - apply find_some in E as [Hin Hk]. apply Z.eqb_eq in Hk. simpl in Hk. subst k.
    split; [intros _; exists c; apply in_rev, Hin | eauto].
  - split; [intros [v Hv]; discriminate|]. intros [cells Hin].
    apply in_rev in Hin. apply (find_none _ _ E) in Hin. simpl in Hin.
    rewrite Z.eqb_refl in Hin. discriminate.
Qed.

Lemma prefix_app (p s : string) : prefix p (p ++ s) = true.
Proof.
  induction p as [|c p IH]; simpl; [destruct s; reflexivity|].
  destruct (ascii_dec c c); [exact IH | contradiction].
Qed.

Lemma parse_recipe_label (s : string) : Ranking.parse_recipe_id ("recipe_" ++ s) = Some s.
Proof.
  rewrite RankingMore.parse_prefixed by apply prefix_app.
  f_equal. cbn [String.length append substring].
  replace (S (S (S (S (S (S (S (String.length s))))))) - 7)%nat with (String.length s) by lia.
  apply RankingMore.substring_all.
Qed.

(** Extra X18 ([parse_recipe_id] then [fetch_recipe_info]): the id that
    [get_matching_recipes] extracts from the label ["recipe_<z>"] of the
    recipe node of [z] is looked up as the first row whose [RecipeId] is
    [z]. *)
Theorem recipe_label_fetch (df : DataLoading.dataframe) (z : Z) :
  match Ranking.parse_recipe_id (Correspondence.node_canonical (Builder.RecipeNode z)) with
  | Some rid => DataLoading.fetch_recipe_info df rid = find (fun row => Z.eqb (fst row) z) (DataLoading.df_rows df)
  | None => False
  end.
Proof.
  cbn [Correspondence.node_canonical]. rewrite parse_recipe_label.
  unfold DataLoading.fetch_recipe_info. rewrite IntFacts.py_int_str. reflexivity.
Qed.

Lemma load_then_build_recipe_nodes_witness :
  DataLoading.load_recipes_from_dataframe
    (DataLoading.mkDataFrame DataLoading.columns_to_keep [(1%Z, []); (2%Z, []); (1%Z, [])]) =
  inr [(1%Z, DataLoading.recipe_data []); (2%Z, DataLoading.recipe_data [])] /\
  let '(G, _) := Builder.create_graph_and_triples
                   [(1%Z, DataLoading.recipe_data []); (2%Z, DataLoading.recipe_data [])] in
  NoDup (Builder.g_nodes G) /\
  forall z, In (Builder.RecipeNode z) (Builder.g_nodes G) <->
            exists cells, In (z, cells) [(1%Z, @nil (string * Builder.cell)); (2%Z, []); (1%Z, [])].
Proof.
  assert (H : DataLoading.load_recipes_from_dataframe
    (DataLoading.mkDataFrame DataLoading.columns_to_keep [(1%Z, []); (2%Z, []); (1%Z, [])]) =
    inr [(1%Z, DataLoading.recipe_data []); (2%Z, DataLoading.recipe_data [])]) by reflexivity.
  split; [exact H | exact (load_then_build_recipe_nodes _ _ H)].
Defined.
